(** * bincreator.py: a file of random bytes, written in 1 MiB chunks

    Shallow embedding of [generate_random_file] from [bincreator.py] and the
    properties of its size computation, its write loop and its effects on
    the file system and on standard output. *)

From Stdlib Require Import ZArith QArith Qround Floats Lia.
From stdpp Require Import gmap strings list pretty.

Local Open Scope Z_scope.

(** ** Python numbers

    [size_gb] is documented as a float; the example call at the end of the
    script passes the int [1].  Both are modelled: a Python int is an
    unbounded integer, a Python float is an IEEE 754 binary64 value, here
    the kernel's primitive [float] with the Standard Library's
    specification of its operations. *)

Inductive pynum : Type :=
  | PyInt (z : Z)
  | PyFloat (x : float).

(** Exceptions the script can meet. *)
Inductive exn : Type :=
  | OverflowError
  | ValueError
  | OSError.

Inductive result (A : Type) : Type :=
  | Ok (a : A)
  | Raise (e : exn).
Arguments Ok {A} a.
Arguments Raise {A} e.

(** [float(z)]: the nearest binary64 (ties to even); Python raises
    [OverflowError] for an int beyond the range of a double. *)
Definition float_of_int (z : Z) : result float :=
  match binary_normalize prec emax z 0 false with
  | S754_infinity _ => Raise OverflowError
  | sf => Ok (SF2Prim sf)
  end.

(** [a * b] on Python numbers: exact on ints, binary64 multiplication
    as soon as one operand is a float (the int operand is converted). *)
Definition py_mul (a b : pynum) : result pynum :=
  match a, b with
  | PyInt x, PyInt y => Ok (PyInt (x * y))
  | PyFloat x, PyFloat y => Ok (PyFloat (x * y)%float)
  | PyFloat x, PyInt y =>
      match float_of_int y with
      | Ok fy => Ok (PyFloat (x * fy)%float)
      | Raise e => Raise e
      end
  | PyInt x, PyFloat y =>
      match float_of_int x with
      | Ok fx => Ok (PyFloat (fx * y)%float)
      | Raise e => Raise e
      end
  end.

(** Magnitude of a finite float truncated to an integer:
    [m * 2^e] for [e >= 0], [m / 2^(-e)] rounded down otherwise. *)
Definition trunc_mag (m : positive) (e : Z) : Z := Z.shiftl (Z.pos m) e.

(** [int(x)]: the identity on ints; on floats truncation toward zero,
    [OverflowError] on an infinity and [ValueError] on a NaN. *)
Definition py_int (a : pynum) : result Z :=
  match a with
  | PyInt z => Ok z
  | PyFloat x =>
      match Prim2SF x with
      | S754_zero _ => Ok 0
      | S754_infinity _ => Raise OverflowError
      | S754_nan => Raise ValueError
      | S754_finite s m e => Ok (cond_Zopp s (trunc_mag m e))
      end
  end.

(** [chunk_size = 1024 * 1024] *)
Definition chunk_size : Z := 1024 * 1024.

(** [target_bytes = int(size_gb * (1024 ** 3))] *)
Definition target_bytes (size_gb : pynum) : result Z :=
  match py_mul size_gb (PyInt (1024 ^ 3)) with
  | Ok p => py_int p
  | Raise e => Raise e
  end.

(** The exact rational value of a number, when it has one. *)
Definition SF2Q (sf : spec_float) : option Q :=
  match sf with
  | S754_zero _ => Some 0%Q
  | S754_finite s m e =>
      Some (if 0 <=? e
            then Qmake (cond_Zopp s (Z.pos m * 2 ^ e)) 1
            else Qmake (cond_Zopp s (Z.pos m)) (Z.to_pos (2 ^ (- e))))
  | _ => None
  end.

Definition pynum_value (a : pynum) : option Q :=
  match a with
  | PyInt z => Some (inject_Z z)
  | PyFloat x => SF2Q (Prim2SF x)
  end.

(** [float(1024 ** 3)] *)
Definition float_GiB : float := 1073741824%float.

(** The shift applied by the first rounding step of [x * 2^30]. *)
Definition GiB_shift (m : positive) (e : Z) : Z :=
  fexp prec emax (Zdigits2 (Z.pos m) + 52 + (e - 22)) - (e - 22).

(** ** The environment

    The script touches three things outside itself: the file system
    ([open], [f.write], the close at the end of the [with] block), the
    operating system's random source ([os.urandom]) and standard output
    ([print]).  The world records the content of every file, what the
    environment refuses (paths that cannot be opened for writing, and the
    number of bytes the device still accepts), the random source as a
    stream of which a prefix has been drawn, and the trace of the
    operations performed so far, oldest first.

    The failures modelled are those of [open] and of [f.write]; the
    random source always delivers, and closing and printing succeed. *)

Inductive event : Type :=
  | EvOpen (path : string)
  | EvWrite (path : string) (n : nat)
  | EvClose (path : string)
  | EvPrint (line : string).

Record world : Type := World {
  files : gmap string (list Byte.byte);
  denied : gset string;
  space : nat;
  entropy : nat -> Byte.byte;
  drawn : nat;
  trace : list event
}.

(** The lines printed so far. *)
Definition stdout (w : world) : list string :=
  omap (fun ev => match ev with EvPrint line => Some line | _ => None end) (trace w).

(** The [f.write] calls made so far, with the number of bytes passed. *)
Definition writes (w : world) : list (string * nat) :=
  omap (fun ev => match ev with EvWrite p n => Some (p, n) | _ => None end) (trace w).

(** The length of the file at [path], if it exists. *)
Definition file_size (w : world) (path : string) : option Z :=
  (fun content => Z.of_nat (length content)) <$> files w !! path.

(** ** Computations: state, exceptions, fuel

    A computation runs on a world and either finishes, with a value or a
    raised exception and the world it leaves, or exhausts the fuel given
    to its loop ([None]). *)

Definition M (A : Type) : Type := world -> option (result A * world).

Definition ret {A : Type} (a : A) : M A := fun w => Some (Ok a, w).

Definition raise {A : Type} (e : exn) : M A := fun w => Some (Raise e, w).

Definition bind {A B : Type} (m : M A) (k : A -> M B) : M B :=
  fun w =>
    match m w with
    | Some (Ok a, w') => k a w'
    | Some (Raise e, w') => Some (Raise e, w')
    | None => None
    end.

Definition lift_result {A : Type} (r : result A) : M A :=
  match r with
  | Ok a => ret a
  | Raise e => raise e
  end.

Notation "x <- m ;; k" := (bind m (fun x => k))
  (at level 100, m at next level, right associativity).

(** The file object [f] of the [with] block: the path it was opened on. *)
Abbreviation handle := string (only parsing).

(** [open(filename, 'wb')]: [OSError] when the path cannot be opened for
    writing; otherwise the file exists afterwards and is empty, whatever
    it held before (the room a truncation frees is not credited to the
    device). *)
Definition open_wb (filename : string) : M handle :=
  fun w =>
    if decide (filename ∈ denied w)
    then Some (Raise OSError, w)
    else Some (Ok filename,
               World (<[filename := []]> (files w)) (denied w) (space w)
                     (entropy w) (drawn w) (trace w ++ [EvOpen filename])).

(** The next [n] bytes of the random source. *)
Definition random_bytes (w : world) (n : nat) : list Byte.byte :=
  map (entropy w) (seq (drawn w) n).

(** [os.urandom(n)]: the next [n] bytes of the random source;
    [ValueError] for a negative [n]. *)
Definition os_urandom (n : Z) : M (list Byte.byte) :=
  fun w =>
    if n <? 0
    then Some (Raise ValueError, w)
    else Some (Ok (random_bytes w (Z.to_nat n)),
               World (files w) (denied w) (space w)
                     (entropy w) (drawn w + Z.to_nat n) (trace w)).

(** [f.write(data)]: appends [data] to the file and returns its length.
    When the device accepts fewer bytes than [data] holds, the bytes
    that fit are appended and [OSError] is raised. *)
Definition f_write (f : handle) (data : list Byte.byte) : M Z :=
  fun w =>
    let tr := trace w ++ [EvWrite f (length data)] in
    if decide (length data <= space w)%nat
    then Some (Ok (Z.of_nat (length data)),
               World (alter (fun old => old ++ data) f (files w)) (denied w)
                     (space w - length data) (entropy w) (drawn w) tr)
    else Some (Raise OSError,
               World (alter (fun old => old ++ take (space w) data) f (files w))
                     (denied w) 0 (entropy w) (drawn w) tr).

(** Leaving the [with] block closes the file. *)
Definition f_close (f : handle) (w : world) : world :=
  World (files w) (denied w) (space w) (entropy w) (drawn w)
        (trace w ++ [EvClose f]).

(** [with open(filename, 'wb') as f: body]: the file is closed when the
    body finishes and when it raises; an exception of the body goes on
    to the caller. *)
Definition with_open_wb {A : Type} (filename : string) (body : handle -> M A) : M A :=
  fun w =>
    match open_wb filename w with
    | Some (Ok f, w1) =>
        match body f w1 with
        | Some (r, w2) => Some (r, f_close f w2)
        | None => None
        end
    | Some (Raise e, w1) => Some (Raise e, w1)
    | None => None
    end.

(** [print(line)] *)
Definition print (line : string) : M unit :=
  fun w =>
    Some (Ok tt,
          World (files w) (denied w) (space w) (entropy w) (drawn w)
                (trace w ++ [EvPrint line])).

(** ** Formatting

    [str] of an int is its decimal numeral.  [str] of a float is the
    shortest decimal string that reads back as the same double; that
    algorithm is outside the script and is taken as given. *)
Class FloatRepr : Type := float_repr : float -> string.

Definition py_str `{FloatRepr} (a : pynum) : string :=
  match a with
  | PyInt z => pretty z
  | PyFloat x => float_repr x
  end.

(** [f"File '{filename}' of {size_gb}GB has been created."] *)
Definition message `{FloatRepr} (filename : string) (size_gb : pynum) : string :=
  "File '" +:+ filename +:+ "' of " +:+ py_str size_gb +:+ "GB has been created.".

(** ** The program *)

(** One pass through the body of the [while] loop; returns the new
    value of [bytes_written]. *)
Definition loop_body (f : handle) (target bytes_written : Z) : M Z :=
  let bytes_to_write := Z.min chunk_size (target - bytes_written) in
  random_data <- os_urandom bytes_to_write ;;
  _ <- f_write f random_data ;;
  ret (bytes_written + bytes_to_write).

(** [while bytes_written < target_bytes: ...]; returns the final value
    of [bytes_written]. *)
Fixpoint while_loop (fuel : nat) (f : handle) (target bytes_written : Z) : M Z :=
  match fuel with
  | O => fun _ => None
  | S fuel' =>
      if bytes_written <? target
      then bytes_written' <- loop_body f target bytes_written ;;
           while_loop fuel' f target bytes_written'
      else ret bytes_written
  end.

Definition generate_random_file `{FloatRepr}
    (fuel : nat) (filename : string) (size_gb : pynum) : M unit :=
  target <- lift_result (target_bytes size_gb) ;;
  _ <- with_open_wb filename (fun f => while_loop fuel f target 0) ;;
  print (message filename size_gb).

(** The call at the end of the script:
    [generate_random_file("random_1gb_file.bin", 1)]. *)
Definition main `{FloatRepr} (fuel : nat) : M unit :=
  generate_random_file fuel "random_1gb_file.bin" (PyInt 1).

(** ** Vocabulary of the properties *)

(** Python's [size_gb < 0], [size_gb >= 0] and [size_gb == 0]. *)
Definition py_negative (a : pynum) : bool :=
  match a with
  | PyInt z => z <? 0
  | PyFloat x => (x <? 0)%float
  end.

Definition py_nonnegative (a : pynum) : bool :=
  match a with
  | PyInt z => 0 <=? z
  | PyFloat x => (0 <=? x)%float
  end.

Definition py_zero (a : pynum) : bool :=
  match a with
  | PyInt z => z =? 0
  | PyFloat x => (x =? 0)%float
  end.

(** [floor(size_in_gibibytes * 1024^3)], as the specification words the
    file length: the floor of the product of exact values. *)
Definition floor_GiB (q : Q) : Z := Qfloor (q * inject_Z (1024 ^ 3)).

(** [ceil(target / chunk_size)], the number of chunk writes the
    specification gives for [target] bytes. *)
Definition chunk_count (target : Z) : Z := (target + chunk_size - 1) / chunk_size.

(** The sizes of the chunk writes, as the specification words them:
    [target / chunk_size] writes of [chunk_size] bytes, then one of
    [target mod chunk_size] bytes unless that is zero. *)
Definition chunk_sizes (target : Z) : list nat :=
  replicate (Z.to_nat (target / chunk_size)) (Z.to_nat chunk_size)
  ++ (if target mod chunk_size =? 0 then [] else [Z.to_nat (target mod chunk_size)]).

(** The world a loop that has [r] bytes left leaves when every write
    succeeds: the bytes drawn are appended to the file in chunks. *)
Definition after_chunks (f : handle) (r : Z) (w : world) : world :=
  World (alter (fun old => old ++ random_bytes w (Z.to_nat r)) f (files w))
        (denied w) (space w - Z.to_nat r) (entropy w) (drawn w + Z.to_nat r)
        (trace w ++ map (EvWrite f) (chunk_sizes r)).

(** The world a successful call for [t] bytes leaves. *)
Definition after_run `{FloatRepr}
    (filename : string) (size_gb : pynum) (t : Z) (w : world) : world :=
  World (<[filename := random_bytes w (Z.to_nat t)]> (files w))
        (denied w) (space w - Z.to_nat t) (entropy w) (drawn w + Z.to_nat t)
        (trace w ++ [EvOpen filename] ++ map (EvWrite filename) (chunk_sizes t)
                 ++ [EvClose filename; EvPrint (message filename size_gb)]).

(** Fuel that is enough for a loop that is to write [t] bytes: one unit
    for each pass and one for the test that ends the loop. *)
Definition enough_fuel (t : Z) : nat := S (Z.to_nat (chunk_count (Z.max 0 t))).

(** The iteration boundaries of the loop: [loop_reach f target s s'] when
    the loop started in state [s] (the value of [bytes_written] and the
    world) passes through [s'] at the top of its body's test, after zero
    or more passes that did not raise. *)
Inductive loop_reach (f : handle) (target : Z) : Z * world -> Z * world -> Prop :=
  | reach_here (s : Z * world) : loop_reach f target s s
  | reach_pass (bw : Z) (w : world) (bw' : Z) (w' : world) (s : Z * world) :
      bw < target ->
      loop_body f target bw w = Some (Ok bw', w') ->
      loop_reach f target (bw', w') s ->
      loop_reach f target (bw, w) s.

(** The content of the file at [path]; empty when there is none. *)
Definition content (w : world) (path : string) : list Byte.byte :=
  default [] (files w !! path).

(** ** Sample environments, for the examples *)

Definition sample_entropy (i : nat) : Byte.byte :=
  if Nat.even i then Byte.x5a else Byte.xa5.

(** An empty file system with room for 4096 bytes. *)
Definition sample_world : world := World ∅ ∅ 4096 sample_entropy 0 [].

(** The same with a file of three bytes already at [out.bin]. *)
Definition sample_world_existing : world :=
  World {[ "out.bin" := [Byte.x01; Byte.x02; Byte.x03] ]} ∅ 4096 sample_entropy 0 [].

(** A file system that refuses [out.bin]. *)
Definition sample_world_denied : world :=
  World ∅ {[ "out.bin" ]} 4096 sample_entropy 0 [].

(** A device with room for three bytes only. *)
Definition sample_world_small : world := World ∅ ∅ 3 sample_entropy 0 [].

(** An empty file system with another random source. *)
Definition sample_world_other : world := World ∅ ∅ 4096 (fun _ => Byte.xff) 0 [].

(** [out.bin] just opened, in the sample world. *)
Definition sample_world_opened : world :=
  World {[ "out.bin" := [] ]} ∅ 4096 sample_entropy 0 [EvOpen "out.bin"].

(** A device with room for 4 MiB. *)
Definition sample_world_large : world :=
  World ∅ ∅ (Z.to_nat 4194304) sample_entropy 0 [].

(** 1.5 MiB, as a size in GiB: [1.5 / 2^10]. *)
Definition mib_and_a_half : float := 0x1.8p-10%float.

(** Five bytes, as a size in GiB: [5 / 2^30]. *)
Definition five_bytes : float := 0x1.4p-28%float.

(** [str] on the floats the examples print; no comparison holds for a
    NaN, which ends in the last branch. *)
Definition sample_repr : FloatRepr :=
  fun x =>
    if (x =? -1.5)%float then "-1.5"
    else if (x =? 1)%float then "1.0"
    else if (x =? five_bytes)%float then "4.656612873077393e-09"
    else if (x =? mib_and_a_half)%float then "0.00146484375"
    else "nan".

(** Arithmetic with the chunk size as the literal it is. *)
Ltac chunk_lia :=
  unfold chunk_count in *; change chunk_size with 1048576 in *;
  Z.div_mod_to_equations; lia.

(** ** More vocabulary *)

(** Python's [size_gb != size_gb], true of a NaN only. *)
Definition py_isnan (a : pynum) : bool :=
  match a with
  | PyInt _ => false
  | PyFloat x => is_nan x
  end.

(** The product [size_gb * (1024 ** 3)] is an infinity. *)
Definition product_infinite (a : pynum) : bool :=
  match a with
  | PyInt _ => false
  | PyFloat x => is_infinity (x * float_GiB)%float
  end.

(** [ceil(size * 1024^3)] on the exact value of the size. *)
Definition ceil_GiB (q : Q) : Z := Qceiling (q * inject_Z (1024 ^ 3)).

(** The events a call adds to the trace once [open] has succeeded:
    the open, the writes, the close, and the line when there is one. *)
Definition call_events (filename : string) (ns : list nat) (line : option string)
    : list event :=
  [EvOpen filename] ++ map (EvWrite filename) ns ++ [EvClose filename]
  ++ match line with Some l => [EvPrint l] | None => [] end.

(** A device with room for a gibibyte. *)
Definition sample_world_gib : world :=
  World ∅ ∅ (Z.to_nat (1024 * chunk_size)) sample_entropy 0 [].



(** ** The size computation on sample values *)

Example target_bytes_int_1 : target_bytes (PyInt 1) = Ok 1073741824.
Proof. reflexivity. Qed.

Example target_bytes_float_1 : target_bytes (PyFloat 1%float) = Ok 1073741824.
Proof. vm_compute. reflexivity. Qed.

(** [0.000001], the double nearest to it: 1073 bytes. *)
Example target_bytes_micro : target_bytes (PyFloat 0x1.0c6f7a0b5ed8dp-20%float) = Ok 1073.
Proof. vm_compute. reflexivity. Qed.

(** [-0.0000000005]: [int] truncates toward zero. *)
Example target_bytes_neg_frac : target_bytes (PyFloat (-0x1.12e0be826d695p-31)%float) = Ok 0.
Proof. vm_compute. reflexivity. Qed.

Example target_bytes_neg : target_bytes (PyFloat (-1.5)%float) = Ok (-1610612736).
Proof. vm_compute. reflexivity. Qed.

Example target_bytes_inf : target_bytes (PyFloat infinity) = Raise OverflowError.
Proof. vm_compute. reflexivity. Qed.

Example target_bytes_nan : target_bytes (PyFloat nan) = Raise ValueError.
Proof. vm_compute. reflexivity. Qed.

(** [1e308]: the product overflows to an infinity. *)
Example target_bytes_huge : target_bytes (PyFloat 0x1.1ccf385ebc8ap+1023%float) = Raise OverflowError.
Proof. vm_compute. reflexivity. Qed.


(** The largest double below [2^994] and its opposite still have a
    finite product. *)
Example target_bytes_below_threshold :
  target_bytes (PyFloat (-0x1.fffffffffffffp+993)%float)
  = Ok (- ((2 ^ 53 - 1) * 2 ^ 971)).
Proof. vm_compute. reflexivity. Qed.

Example target_bytes_at_threshold :
  target_bytes (PyFloat (-0x1p+994)%float) = Raise OverflowError.
Proof. vm_compute. reflexivity. Qed.
(** ** Binary64 multiplication by [2^30] is exact

    [float(1024 ** 3)] is [2^52 * 2^-22]; the product of a finite double
    with it only moves the exponent, unless it overflows. *)

Section Binary64.

Lemma iter_pos_nat {A : Type} (f : A -> A) (p : positive) (x : A) :
  SpecFloat.iter_pos f p x = Nat.iter (Pos.to_nat p) f x.
Proof.
  revert x. induction p as [p IH | p IH |]; intros x; simpl SpecFloat.iter_pos.
  - rewrite !IH, Pos2Nat.inj_xI.
    replace (S (2 * Pos.to_nat p))%nat with (Pos.to_nat p + (Pos.to_nat p + 1))%nat by lia.
    rewrite !Nat.iter_add. reflexivity.
  - rewrite !IH, Pos2Nat.inj_xO.
    replace (2 * Pos.to_nat p)%nat with (Pos.to_nat p + Pos.to_nat p)%nat by lia.
    rewrite Nat.iter_add. reflexivity.
  - reflexivity.
Qed.

Lemma shr_1_double (z : Z) :
  0 < z ->
  shr_1 (Build_shr_record (2 * z) false false) = Build_shr_record z false false.
Proof. destruct z; [lia | reflexivity | lia]. Qed.

Lemma shr_1_iter (n : nat) (z : Z) :
  0 < z ->
  Nat.iter n shr_1 (Build_shr_record (z * 2 ^ Z.of_nat n) false false)
  = Build_shr_record z false false.
Proof.
  intros Hz. induction n as [| n IH].
  - simpl. f_equal. lia.
  - rewrite Nat.iter_succ_r, Nat2Z.inj_succ, Z.pow_succ_r by lia.
    replace (z * (2 * 2 ^ Z.of_nat n)) with (2 * (z * 2 ^ Z.of_nat n)) by lia.
    rewrite shr_1_double by (apply Z.mul_pos_pos; [assumption | apply Z.pow_pos_nonneg; lia]).
    exact IH.
Qed.

Lemma shr_exact (z e n k : Z) :
  0 < z -> 0 <= n <= k ->
  shr (Build_shr_record (z * 2 ^ k) false false) e n
  = (Build_shr_record (z * 2 ^ (k - n)) false false, e + n).
Proof.
  intros Hz Hn. destruct n as [| p | p]; simpl shr.
  - rewrite Z.sub_0_r, Z.add_0_r. reflexivity.
  - f_equal. rewrite iter_pos_nat.
    replace (z * 2 ^ k) with ((z * 2 ^ (k - Z.pos p)) * 2 ^ Z.of_nat (Pos.to_nat p)).
    + apply shr_1_iter. apply Z.mul_pos_pos; [assumption | apply Z.pow_pos_nonneg; lia].
    + rewrite positive_nat_Z, <- Z.mul_assoc, <- Z.pow_add_r by lia.
      do 2 f_equal. lia.
  - lia.
Qed.

Lemma Zdigits2_pos (z : Z) : 0 < z -> 0 < Zdigits2 z.
Proof. destruct z; simpl; lia. Qed.

Lemma Zdigits2_double (z : Z) : 0 < z -> Zdigits2 (2 * z) = Zdigits2 z + 1.
Proof.
  destruct z as [| p | p]; [lia | | lia]. intros _.
  change (Z.pos (Pos.succ (digits2_pos p)) = Z.pos (digits2_pos p) + 1).
  apply Pos2Z.inj_succ.
Qed.

Lemma Zdigits2_mul_pow2 (z k : Z) :
  0 < z -> 0 <= k -> Zdigits2 (z * 2 ^ k) = Zdigits2 z + k.
Proof.
  intros Hz Hk. revert k Hk. apply natlike_ind.
  - rewrite Z.mul_1_r. lia.
  - intros k Hk IH. rewrite Z.pow_succ_r by assumption.
    replace (z * (2 * 2 ^ k)) with (2 * (z * 2 ^ k)) by lia.
    rewrite Zdigits2_double, IH by (apply Z.mul_pos_pos; [assumption | apply Z.pow_pos_nonneg; lia]).
    lia.
Qed.

Lemma GiB_shift_range (m : positive) (e : Z) :
  bounded prec emax m e = true -> 22 <= GiB_shift m e <= 52.
Proof.
  unfold bounded, canonical_mantissa, GiB_shift, fexp, SpecFloat.emin, prec, emax.
  intros H. apply andb_prop in H as [H1 H2].
  apply Z.eqb_eq in H1. apply Z.leb_le in H2.
  change (Z.pos (digits2_pos m)) with (Zdigits2 (Z.pos m)) in H1.
  pose proof (Zdigits2_pos (Z.pos m) eq_refl). lia.
Qed.

Lemma binary_round_aux_GiB (s : bool) (m : positive) (e : Z) :
  bounded prec emax m e = true ->
  exists m' : positive,
    Z.pos m' = Z.pos m * 2 ^ (52 - GiB_shift m e) /\
    binary_round_aux prec emax s (Z.pos m * 2 ^ 52) (e - 22) loc_Exact
    = if e + GiB_shift m e - 22 <=? emax - prec
      then S754_finite s m' (e + GiB_shift m e - 22)
      else S754_infinity s.
Proof.
  intros Hb. pose proof (GiB_shift_range m e Hb) as Hn.
  assert (Hpos : 0 < Z.pos m * 2 ^ (52 - GiB_shift m e)).
  { apply Z.mul_pos_pos; [lia | apply Z.pow_pos_nonneg; lia]. }
  destruct (Z.pos m * 2 ^ (52 - GiB_shift m e)) as [| m' |] eqn:Hm'; try lia.
  exists m'. split; [reflexivity |].
  unfold binary_round_aux, shr_fexp. simpl shr_record_of_loc.
  rewrite Zdigits2_mul_pow2 by lia.
  fold (GiB_shift m e).
  rewrite shr_exact by lia. rewrite Hm'.
  simpl shr_m. simpl loc_of_shr_record. simpl round_nearest_even.
  simpl shr_record_of_loc.
  replace (fexp prec emax (Zdigits2 (Z.pos m') + (e - 22 + GiB_shift m e))
           - (e - 22 + GiB_shift m e)) with 0.
  - simpl shr. simpl shr_m.
    replace (e - 22 + GiB_shift m e) with (e + GiB_shift m e - 22) by lia.
    reflexivity.
  - rewrite <- Hm', Zdigits2_mul_pow2 by lia.
    unfold GiB_shift in *. unfold fexp in *. lia.
Qed.

End Binary64.

(** ** The size computation *)

Section TargetBytes.

Lemma float_of_int_GiB : float_of_int (1024 ^ 3) = Ok float_GiB.
Proof. vm_compute. reflexivity. Qed.

Lemma Prim2SF_float_GiB :
  Prim2SF float_GiB = S754_finite false 4503599627370496 (-22).
Proof. vm_compute. reflexivity. Qed.

Lemma bounded_exponent (m : positive) (e : Z) :
  bounded prec emax m e = true ->
  (e + GiB_shift m e - 22 <=? emax - prec) = (e <=? 941).
Proof.
  intros Hb. pose proof (GiB_shift_range m e Hb) as Hn. revert Hb Hn.
  unfold bounded, canonical_mantissa, GiB_shift, fexp, SpecFloat.emin, prec, emax.
  intros H Hn. apply andb_prop in H as [H1 H2].
  apply Z.eqb_eq in H1. apply Z.leb_le in H2.
  change (Z.pos (digits2_pos m)) with (Zdigits2 (Z.pos m)) in H1.
  pose proof (Zdigits2_pos (Z.pos m) eq_refl).
  destruct (Z.leb_spec (e + (Z.max (Zdigits2 (Z.pos m) + 52 + (e - 22) - 53) (3 - 1024 - 53)
                              - (e - 22)) - 22) (1024 - 53));
    destruct (Z.leb_spec e 941); try reflexivity; lia.
Qed.

(** The product [x * 2^30] of a finite double, as the specification of
    binary64 multiplication computes it: the same mantissa and sign with
    the exponent moved by 30, or an infinity once the exponent leaves
    the format. *)
Lemma SF64mul_GiB (s : bool) (m : positive) (e : Z) :
  bounded prec emax m e = true ->
  exists (m' : positive) (e' : Z),
    trunc_mag m' e' = Z.shiftl (Z.pos m) (e + 30) /\
    SF64mul (S754_finite s m e) (Prim2SF float_GiB)
    = if e <=? 941 then S754_finite s m' e' else S754_infinity s.
Proof.
  intros Hb. rewrite Prim2SF_float_GiB. unfold SF64mul, SFmul.
  rewrite xorb_false_r, Pos2Z.inj_mul.
  change (Z.pos 4503599627370496) with (2 ^ 52).
  change (e + -22) with (e - 22).
  destruct (binary_round_aux_GiB s m e Hb) as (m' & Hm' & ->).
  pose proof (GiB_shift_range m e Hb) as Hn.
  exists m', (e + GiB_shift m e - 22). split.
  - unfold trunc_mag. rewrite Hm'.
    rewrite <- Z.shiftl_mul_pow2, Z.shiftl_shiftl by lia.
    f_equal. lia.
  - rewrite bounded_exponent by assumption. reflexivity.
Qed.

(** [target_bytes] on ints: the exact product. *)
Lemma target_bytes_int (z : Z) : target_bytes (PyInt z) = Ok (z * 1024 ^ 3).
Proof. reflexivity. Qed.

(** [target_bytes] on floats, by the class of the argument. *)
Lemma target_bytes_float (x : float) :
  target_bytes (PyFloat x) =
  match Prim2SF x with
  | S754_zero _ => Ok 0
  | S754_infinity _ => Raise OverflowError
  | S754_nan => Raise ValueError
  | S754_finite s m e =>
      if e <=? 941
      then Ok (cond_Zopp s (Z.shiftl (Z.pos m) (e + 30)))
      else Raise OverflowError
  end.
Proof.
  unfold target_bytes, py_mul. rewrite float_of_int_GiB. unfold py_int.
  rewrite FloatAxioms.mul_spec. pose proof (Prim2SF_valid x) as Hv.
  destruct (Prim2SF x) as [s | s | | s m e] eqn:Hx.
  - rewrite Prim2SF_float_GiB. reflexivity.
  - rewrite Prim2SF_float_GiB. reflexivity.
  - reflexivity.
  - simpl in Hv. destruct (SF64mul_GiB s m e Hv) as (m' & e' & Ht & ->).
    destruct (e <=? 941); [rewrite Ht |]; reflexivity.
Qed.

Lemma digits2_pos_bounds (m : positive) :
  2 ^ (Z.pos (digits2_pos m) - 1) <= Z.pos m < 2 ^ Z.pos (digits2_pos m).
Proof.
  induction m as [p IH | p IH |]; cbn [digits2_pos].
  - rewrite Pos2Z.inj_succ. change (Z.pos p~1) with (2 * Z.pos p + 1).
    replace (Z.succ (Z.pos (digits2_pos p)) - 1) with (Z.succ (Z.pos (digits2_pos p) - 1)) by lia.
    rewrite !Z.pow_succ_r by lia. lia.
  - rewrite Pos2Z.inj_succ. change (Z.pos p~0) with (2 * Z.pos p).
    replace (Z.succ (Z.pos (digits2_pos p)) - 1) with (Z.succ (Z.pos (digits2_pos p) - 1)) by lia.
    rewrite !Z.pow_succ_r by lia. lia.
  - split; [reflexivity | reflexivity].
Qed.

(** The product of a finite double with [2^30] is finite exactly when
    the double is below [2^994] in magnitude (both sides scaled by
    [2^1074], the weight of the smallest exponent of the format). *)
Lemma finite_product_threshold (m : positive) (e : Z) :
  bounded prec emax m e = true ->
  (e <=? 941) = true <-> Z.pos m * 2 ^ (e + 1074) < 2 ^ (994 + 1074).
Proof.
  unfold bounded, canonical_mantissa, fexp, SpecFloat.emin, prec, emax.
  intros Hb. apply andb_prop in Hb as [H1 H2].
  apply Z.eqb_eq in H1. apply Z.leb_le in H2.
  pose proof (digits2_pos_bounds m) as [Hlo Hhi].
  set (d := Z.pos (digits2_pos m)) in *.
  assert (Hd : 0 < d) by (subst d; lia).
  assert (He : 0 <= e + 1074) by lia.
  assert (Hpow : 0 < 2 ^ (e + 1074)) by (apply Z.pow_pos_nonneg; lia).
  rewrite Z.leb_le. split.
  - intros Hle.
    apply Z.lt_le_trans with (2 ^ 53 * 2 ^ (e + 1074)).
    + apply Z.mul_lt_mono_pos_r; [exact Hpow |].
      apply Z.lt_le_trans with (2 ^ d); [exact Hhi |].
      apply Z.pow_le_mono_r; lia.
    + rewrite <- Z.pow_add_r by lia. apply Z.pow_le_mono_r; lia.
  - intros Hlt. destruct (Z.le_gt_cases e 941) as [Hle | Hgt]; [exact Hle | exfalso].
    assert (Hd53 : d = 53) by lia.
    assert (2 ^ (994 + 1074) <= Z.pos m * 2 ^ (e + 1074)); [| lia].
    apply Z.le_trans with (2 ^ 52 * 2 ^ (e + 1074)).
    + rewrite <- Z.pow_add_r by lia. apply Z.pow_le_mono_r; lia.
    + apply Z.mul_le_mono_nonneg_r; [lia |].
      rewrite Hd53 in Hlo. exact Hlo.
Qed.

End TargetBytes.

(** ** Signs, exact values and the floor *)

Section Numbers.

Lemma Prim2SF_zero : Prim2SF 0%float = S754_zero false.
Proof. vm_compute. reflexivity. Qed.

(** The three comparisons with zero, by the class of a float. *)
Lemma py_negative_float (x : float) :
  py_negative (PyFloat x) =
  match Prim2SF x with
  | S754_finite s _ _ | S754_infinity s => s
  | _ => false
  end.
Proof.
  unfold py_negative. rewrite FloatAxioms.ltb_spec, Prim2SF_zero.
  destruct (Prim2SF x) as [s | s | | s m e]; try destruct s; reflexivity.
Qed.

Lemma py_nonnegative_float (x : float) :
  py_nonnegative (PyFloat x) =
  match Prim2SF x with
  | S754_finite s _ _ | S754_infinity s => negb s
  | S754_zero _ => true
  | S754_nan => false
  end.
Proof.
  unfold py_nonnegative. rewrite FloatAxioms.leb_spec, Prim2SF_zero.
  destruct (Prim2SF x) as [s | s | | s m e]; try destruct s; reflexivity.
Qed.

Lemma py_zero_float (x : float) :
  py_zero (PyFloat x) =
  match Prim2SF x with
  | S754_zero _ => true
  | _ => false
  end.
Proof.
  unfold py_zero. rewrite FloatAxioms.eqb_spec, Prim2SF_zero.
  destruct (Prim2SF x) as [s | s | | s m e]; try destruct s; reflexivity.
Qed.

Lemma floor_GiB_int (z : Z) : floor_GiB (inject_Z z) = z * 1024 ^ 3.
Proof.
  unfold floor_GiB, Qfloor, Qmult, inject_Z. cbn [Qnum Qden].
  change (Z.pos (1 * 1)) with 1. apply Z.div_1_r.
Qed.

Lemma floor_GiB_zero : floor_GiB 0 = 0.
Proof. reflexivity. Qed.

(** For a positive finite double the truncation the code computes is the
    floor of the exact product. *)
Lemma floor_GiB_finite (m : positive) (e : Z) (q : Q) :
  SF2Q (S754_finite false m e) = Some q ->
  floor_GiB q = Z.shiftl (Z.pos m) (e + 30).
Proof.
  unfold SF2Q. cbn [cond_Zopp]. intros Hq.
  destruct (Z.leb_spec 0 e) as [He | He]; injection Hq as <-;
    unfold floor_GiB, Qfloor, Qmult, inject_Z; cbn [Qnum Qden];
    change (1024 ^ 3) with (2 ^ 30).
  - change (Z.pos (1 * 1)) with 1. rewrite Z.div_1_r.
    rewrite Z.shiftl_mul_pow2 by lia. rewrite Z.pow_add_r by lia. lia.
  - rewrite Pos.mul_1_r, Z2Pos.id by (apply Z.pow_pos_nonneg; lia).
    replace (e + 30) with (30 + e) by lia.
    rewrite <- Z.shiftl_shiftl by lia.
    rewrite (Z.shiftl_mul_pow2 (Z.pos m) 30) by lia.
    apply eq_sym, Z.shiftl_div_pow2. lia.
Qed.

Lemma SF2Q_finite_sign (s : bool) (m : positive) (e : Z) (q : Q) :
  SF2Q (S754_finite s m e) = Some q ->
  if s then (q < 0)%Q else (0 < q)%Q.
Proof.
  unfold SF2Q. intros Hq.
  assert (Hp : 0 < Z.pos m * 2 ^ e \/ e < 0).
  { destruct (Z.le_gt_cases 0 e); [left | right; lia].
    apply Z.mul_pos_pos; [lia | apply Z.pow_pos_nonneg; lia]. }
  destruct (Z.leb_spec 0 e), s; injection Hq as <-;
    unfold Qlt; cbn [Qnum Qden cond_Zopp]; lia.
Qed.

(** A number that compares [>= 0] and whose product is finite: the
    target is the floor of the exact product. *)
Lemma target_bytes_nonnegative (size_gb : pynum) (t : Z) :
  py_nonnegative size_gb = true ->
  target_bytes size_gb = Ok t ->
  exists q : Q,
    pynum_value size_gb = Some q /\ (0 <= q)%Q /\ t = floor_GiB q /\ 0 <= t.
Proof.
  destruct size_gb as [z | x].
  - cbn [py_nonnegative]. intros Hz%Z.leb_le. rewrite target_bytes_int.
    intros [= <-]. exists (inject_Z z). repeat split.
    + unfold Qle, inject_Z. cbn [Qnum Qden]. lia.
    + symmetry. apply floor_GiB_int.
    + lia.
  - rewrite py_nonnegative_float, target_bytes_float. cbn [pynum_value].
    destruct (Prim2SF x) as [s | s | | s m e]; try discriminate.
    + intros _ [= <-]. exists 0%Q. repeat split; [apply Qle_refl | lia].
    + intros Hs. destruct s; [discriminate |].
      destruct (e <=? 941); [| discriminate]. cbn [cond_Zopp]. intros [= <-].
      destruct (SF2Q (S754_finite false m e)) as [q |] eqn:Hq; [| discriminate].
      exists q. pose proof (SF2Q_finite_sign _ _ _ _ Hq) as Hpos. cbn in Hpos.
      repeat split.
      * apply Qlt_le_weak. exact Hpos.
      * symmetry. apply floor_GiB_finite. exact Hq.
      * apply Z.shiftl_nonneg. lia.
Qed.

(** A number that compares [< 0]: the product overflows or the target
    is not positive. *)
Lemma target_bytes_negative (size_gb : pynum) :
  py_negative size_gb = true ->
  target_bytes size_gb = Raise OverflowError \/
  exists t : Z, target_bytes size_gb = Ok t /\ t <= 0.
Proof.
  destruct size_gb as [z | x].
  - cbn [py_negative]. intros Hz%Z.ltb_lt. right. exists (z * 1024 ^ 3).
    split; [apply target_bytes_int | lia].
  - rewrite py_negative_float, target_bytes_float.
    destruct (Prim2SF x) as [s | s | | s m e]; try discriminate.
    + intros _. left. reflexivity.
    + intros ->. destruct (e <=? 941); [right | left; reflexivity].
      eexists. split; [reflexivity |]. cbn [cond_Zopp].
      pose proof (Z.shiftl_nonneg (Z.pos m) (e + 30)). lia.
Qed.

(** A number that compares [== 0]: the target is zero. *)
Lemma target_bytes_zero (size_gb : pynum) :
  py_zero size_gb = true -> target_bytes size_gb = Ok 0.
Proof.
  destruct size_gb as [z | x].
  - cbn [py_zero]. intros ->%Z.eqb_eq. reflexivity.
  - rewrite py_zero_float, target_bytes_float.
    destruct (Prim2SF x); try discriminate. reflexivity.
Qed.

End Numbers.

(** ** NaN, infinite products and truncation toward zero *)

Section Errors.

Lemma Prim2SF_infinity : Prim2SF infinity = S754_infinity false.
Proof. vm_compute. reflexivity. Qed.

Lemma is_nan_spec (x : float) :
  is_nan x = match Prim2SF x with S754_nan => true | _ => false end.
Proof.
  unfold is_nan. rewrite FloatAxioms.eqb_spec. unfold SFeqb, SFcompare.
  destruct (Prim2SF x) as [s | s | | s m e]; try destruct s; try reflexivity;
    rewrite Z.compare_refl, Pos.compare_cont_refl; reflexivity.
Qed.

Lemma is_infinity_spec (x : float) :
  is_infinity x = match Prim2SF x with S754_infinity _ => true | _ => false end.
Proof.
  unfold is_infinity. rewrite FloatAxioms.eqb_spec, abs_spec, Prim2SF_infinity.
  destruct (Prim2SF x) as [s | s | | s m e]; reflexivity.
Qed.

(** The class of the product [x * 2^30], by the class of [x]. *)
Lemma product_infinite_float (x : float) :
  product_infinite (PyFloat x) =
  match Prim2SF x with
  | S754_infinity _ => true
  | S754_finite _ _ e => negb (e <=? 941)
  | _ => false
  end.
Proof.
  unfold product_infinite. rewrite is_infinity_spec, FloatAxioms.mul_spec.
  pose proof (Prim2SF_valid x) as Hv.
  destruct (Prim2SF x) as [s | s | | s m e] eqn:Hx;
    try (rewrite Prim2SF_float_GiB; reflexivity).
  simpl in Hv. destruct (SF64mul_GiB s m e Hv) as (m' & e' & _ & ->).
  destruct (e <=? 941); reflexivity.
Qed.

(** The size computation, case by case: a NaN raises [ValueError], an
    infinite product [OverflowError], and nothing else fails. *)
Lemma target_bytes_errors (size_gb : pynum) :
  match target_bytes size_gb with
  | Ok _ => py_isnan size_gb = false /\ product_infinite size_gb = false
  | Raise ValueError => py_isnan size_gb = true
  | Raise OverflowError => py_isnan size_gb = false /\ product_infinite size_gb = true
  | Raise OSError => False
  end.
Proof.
  destruct size_gb as [z | x].
  - rewrite target_bytes_int. split; reflexivity.
  - rewrite target_bytes_float, product_infinite_float. cbn [py_isnan].
    rewrite is_nan_spec.
    destruct (Prim2SF x) as [s | s | | s m e]; try (split; reflexivity); try reflexivity.
    destruct (e <=? 941); split; reflexivity.
Qed.

(** For a negative finite double the truncation is the ceiling of the
    exact product. *)
Lemma ceil_GiB_finite (m : positive) (e : Z) (q : Q) :
  SF2Q (S754_finite true m e) = Some q ->
  ceil_GiB q = - Z.shiftl (Z.pos m) (e + 30).
Proof.
  intros Hq.
  assert (Hpos : exists q', SF2Q (S754_finite false m e) = Some q' /\
                            Qfloor (- (q * inject_Z (1024 ^ 3))) = floor_GiB q').
  { revert Hq. unfold SF2Q. cbn [cond_Zopp].
    destruct (0 <=? e); intros [= <-]; eexists; (split; [reflexivity |]);
      unfold floor_GiB, Qfloor, Qmult, Qopp, inject_Z; cbn [Qnum Qden];
      rewrite Z.mul_opp_l, Z.opp_involutive; reflexivity. }
  destruct Hpos as (q' & Hq' & Hfl).
  unfold ceil_GiB, Qceiling. rewrite Hfl, (floor_GiB_finite m e q' Hq'). reflexivity.
Qed.

Lemma ceil_GiB_int (z : Z) : ceil_GiB (inject_Z z) = z * 1024 ^ 3.
Proof.
  unfold ceil_GiB, Qceiling, Qfloor, Qmult, Qopp, inject_Z. cbn [Qnum Qden].
  change (Z.pos (1 * 1)) with 1. rewrite Z.div_1_r. lia.
Qed.

(** A number that compares [< 0] and whose product is finite: the
    target is the ceiling of the exact product. *)
Lemma target_bytes_negative_ceil (size_gb : pynum) (t : Z) :
  py_negative size_gb = true ->
  target_bytes size_gb = Ok t ->
  exists q : Q,
    pynum_value size_gb = Some q /\ (q < 0)%Q /\ t = ceil_GiB q.
Proof.
  destruct size_gb as [z | x].
  - cbn [py_negative]. intros Hz%Z.ltb_lt. rewrite target_bytes_int.
    intros [= <-]. exists (inject_Z z). repeat split.
    + unfold Qlt, inject_Z. cbn [Qnum Qden]. lia.
    + symmetry. apply ceil_GiB_int.
  - rewrite py_negative_float, target_bytes_float. cbn [pynum_value].
    destruct (Prim2SF x) as [s | s | | s m e]; try discriminate.
    intros ->. destruct (e <=? 941); [| discriminate]. cbn [cond_Zopp]. intros [= <-].
    destruct (SF2Q (S754_finite true m e)) as [q |] eqn:Hq; [| discriminate].
    exists q. pose proof (SF2Q_finite_sign _ _ _ _ Hq) as Hneg. cbn in Hneg.
    repeat split; [exact Hneg |].
    symmetry. apply ceil_GiB_finite. exact Hq.
Qed.

End Errors.

(** ** Chunk arithmetic *)

Section Chunks.

Lemma chunk_size_pos : 0 < chunk_size.
Proof. reflexivity. Qed.

Lemma chunk_count_nonpos (r : Z) : r <= 0 -> chunk_count r <= 0.
Proof. chunk_lia. Qed.

Lemma chunk_count_zero : chunk_count 0 = 0.
Proof. reflexivity. Qed.

Lemma chunk_count_step (r : Z) :
  0 < r -> chunk_count r = 1 + chunk_count (r - Z.min chunk_size r).
Proof. chunk_lia. Qed.

Lemma chunk_count_nonneg (r : Z) : 0 <= r -> 0 <= chunk_count r.
Proof. chunk_lia. Qed.

Lemma chunk_count_multiple (r : Z) :
  0 <= r -> r mod chunk_size = 0 -> chunk_count r = r / chunk_size.
Proof. chunk_lia. Qed.

Lemma chunk_count_not_multiple (r : Z) :
  0 <= r -> r mod chunk_size <> 0 -> chunk_count r = r / chunk_size + 1.
Proof. chunk_lia. Qed.

Lemma chunk_sizes_zero : chunk_sizes 0 = [].
Proof. reflexivity. Qed.

Lemma chunk_sizes_step (r : Z) :
  0 < r ->
  chunk_sizes r
  = Z.to_nat (Z.min chunk_size r) :: chunk_sizes (r - Z.min chunk_size r).
Proof.
  intros Hr. unfold chunk_sizes.
  destruct (Z.le_gt_cases chunk_size r) as [Hge | Hlt].
  - rewrite Z.min_l by assumption.
    replace (r / chunk_size) with (Z.succ ((r - chunk_size) / chunk_size))
      by chunk_lia.
    replace ((r - chunk_size) mod chunk_size) with (r mod chunk_size)
      by chunk_lia.
    rewrite Z2Nat.inj_succ by chunk_lia.
    reflexivity.
  - rewrite Z.min_r, Z.sub_diag by lia.
    rewrite Z.div_small, Z.mod_small by lia.
    destruct (Z.eqb_spec r 0); [lia | reflexivity].
Qed.

Lemma chunk_sizes_length (r : Z) :
  0 <= r -> Z.of_nat (length (chunk_sizes r)) = chunk_count r.
Proof.
  intros Hr. unfold chunk_sizes.
  rewrite length_app, length_replicate.
  destruct (Z.eqb_spec (r mod chunk_size) 0) as [Hm | Hm]; simpl length.
  - rewrite chunk_count_multiple by assumption.
    pose proof (Z.div_pos r chunk_size Hr chunk_size_pos). lia.
  - rewrite chunk_count_not_multiple by assumption.
    pose proof (Z.div_pos r chunk_size Hr chunk_size_pos). lia.
Qed.

End Chunks.

(** ** The write loop *)

Section Loop.

Lemma world_eq (w : world) fs dn sp en dr tr :
  files w = fs -> denied w = dn -> space w = sp -> entropy w = en ->
  drawn w = dr -> trace w = tr -> w = World fs dn sp en dr tr.
Proof. destruct w; simpl; intros; subst; reflexivity. Qed.

Lemma random_bytes_length (w : world) (n : nat) : length (random_bytes w n) = n.
Proof. unfold random_bytes. rewrite length_map, length_seq. reflexivity. Qed.

Lemma random_bytes_app (w : world) (n k : nat) fs dn sp tr :
  random_bytes w (n + k)
  = random_bytes w n
    ++ random_bytes (World fs dn sp (entropy w) (drawn w + n) tr) k.
Proof. unfold random_bytes. simpl. rewrite seq_app, map_app. reflexivity. Qed.

(** One pass through the body, when there is something left to write:
    the chunk is [min(chunk_size, remaining)] bytes, drawn and then
    written; the write fails when the device has less room. *)
Lemma loop_body_eq (f : handle) (target bw : Z) (w : world) :
  bw < target ->
  loop_body f target bw w =
  let n := Z.to_nat (Z.min chunk_size (target - bw)) in
  let tr := trace w ++ [EvWrite f n] in
  if decide (n <= space w)%nat
  then Some (Ok (bw + Z.min chunk_size (target - bw)),
             World (alter (fun old => old ++ random_bytes w n) f (files w))
                   (denied w) (space w - n) (entropy w) (drawn w + n) tr)
  else Some (Raise OSError,
             World (alter (fun old => old ++ take (space w) (random_bytes w n)) f (files w))
                   (denied w) 0 (entropy w) (drawn w + n) tr).
Proof.
  intros Hlt. unfold loop_body, bind, os_urandom.
  pose proof chunk_size_pos.
  destruct (Z.ltb_spec (Z.min chunk_size (target - bw)) 0) as [Hneg | _]; [lia |].
  unfold f_write. cbn [files denied space entropy drawn trace].
  rewrite random_bytes_length.
  cbv zeta. destruct (decide _); reflexivity.
Qed.

(** More fuel does not change the outcome of a loop that finished. *)
Lemma while_loop_fuel_mono (fuel fuel' : nat) (f : handle) (target bw : Z)
    (w : world) (out : result Z * world) :
  (fuel <= fuel')%nat ->
  while_loop fuel f target bw w = Some out ->
  while_loop fuel' f target bw w = Some out.
Proof.
  revert fuel' bw w. induction fuel as [| fuel IH]; intros fuel' bw w Hle Hrun.
  - discriminate.
  - destruct fuel' as [| fuel']; [lia |].
    cbn [while_loop] in *. destruct (bw <? target); [| exact Hrun].
    unfold bind in *. destruct (loop_body f target bw w) as [[[bw' | e] w'] |].
    + apply IH; [lia | exact Hrun].
    + exact Hrun.
    + discriminate.
Qed.

Lemma after_chunks_zero (f : handle) (w : world) : after_chunks f 0 w = w.
Proof.
  symmetry. apply world_eq; try reflexivity.
  - symmetry. apply alter_id. intros old _. apply app_nil_r.
  - change (Z.to_nat 0) with 0%nat. lia.
  - change (Z.to_nat 0) with 0%nat. lia.
  - rewrite chunk_sizes_zero. symmetry. apply app_nil_r.
Qed.

(** The loop with enough room on the device: [bytes_written] ends at
    the target and the world is the one [after_chunks] describes. *)
Lemma while_loop_ok (fuel : nat) (f : handle) (target bw : Z) (w : world) :
  (Z.to_nat (target - bw) <= space w)%nat ->
  (Z.to_nat (chunk_count (Z.max 0 (target - bw))) < fuel)%nat ->
  while_loop fuel f target bw w
  = Some (Ok (Z.max bw target), after_chunks f (Z.max 0 (target - bw)) w).
Proof.
  revert bw w. induction fuel as [| fuel IH]; intros bw w Hsp Hfuel; [lia |].
  cbn [while_loop]. destruct (Z.ltb_spec bw target) as [Hlt | Hge].
  - unfold bind. rewrite loop_body_eq by assumption. cbv zeta.
    rewrite (Z.max_r 0 (target - bw)) in * by lia.
    rewrite (Z.max_r bw target) by lia.
    set (n := Z.min chunk_size (target - bw)).
    assert (Hn : 0 < n <= target - bw) by (pose proof chunk_size_pos; lia).
    rewrite decide_True by lia.
    rewrite chunk_count_step in Hfuel by lia. fold n in Hfuel.
    pose proof (chunk_count_nonneg (target - bw - n) ltac:(lia)).
    replace (target - bw - n) with (Z.max 0 (target - (bw + n))) in * by lia.
    rewrite IH; cbn [space]; [| lia | lia].
    f_equal. f_equal; [f_equal; lia |].
    unfold after_chunks. cbn [files denied space entropy drawn trace].
    replace (Z.max 0 (target - (bw + n))) with (target - bw - n) by lia.
    f_equal.
    + rewrite alter_alter_eq. apply alter_ext. intros old _. unfold compose.
      replace (Z.to_nat (target - bw)) with (Z.to_nat n + Z.to_nat (target - bw - n))%nat by lia.
      rewrite (random_bytes_app w _ _ (alter (fun old0 => old0 ++ random_bytes w (Z.to_nat n)) f (files w))
                 (denied w) (space w - Z.to_nat n)%nat (trace w ++ [EvWrite f (Z.to_nat n)])).
      rewrite app_assoc. reflexivity.
    + lia.
    + lia.
    + rewrite (chunk_sizes_step (target - bw)) by lia. fold n.
      rewrite <- app_assoc. reflexivity.
  - unfold ret. rewrite (Z.max_l bw target), (Z.max_l 0 (target - bw)) by lia.
    rewrite after_chunks_zero. reflexivity.
Qed.

(** The loop on a device with too little room: the write that no longer
    fits raises [OSError], and the file holds the bytes that did fit. *)
Lemma while_loop_full (fuel : nat) (f : handle) (target bw : Z) (w : world) :
  (space w < Z.to_nat (target - bw))%nat ->
  (Z.to_nat (chunk_count (Z.max 0 (target - bw))) < fuel)%nat ->
  exists w' : world,
    while_loop fuel f target bw w = Some (Raise OSError, w') /\
    files w'
    = alter (fun old => old ++ take (space w) (random_bytes w (Z.to_nat (target - bw))))
            f (files w) /\
    denied w' = denied w /\ space w' = 0%nat /\ entropy w' = entropy w /\
    exists ns : list nat, trace w' = trace w ++ map (EvWrite f) ns.
Proof.
  revert bw w. induction fuel as [| fuel IH]; intros bw w Hsp Hfuel; [lia |].
  assert (Hlt : bw < target) by lia.
  cbn [while_loop]. destruct (Z.ltb_spec bw target) as [_ | Hge]; [| lia].
  unfold bind. rewrite loop_body_eq by assumption. cbv zeta.
  rewrite (Z.max_r 0 (target - bw)) in * by lia.
  set (n := Z.min chunk_size (target - bw)).
  assert (Hn : 0 < n <= target - bw) by (pose proof chunk_size_pos; lia).
  assert (Hsplit : Z.to_nat (target - bw) = (Z.to_nat n + Z.to_nat (target - bw - n))%nat) by lia.
  destruct (decide (Z.to_nat n <= space w)%nat) as [Hfit | Hfull].
  - rewrite chunk_count_step in Hfuel by lia. fold n in Hfuel.
    pose proof (chunk_count_nonneg (target - bw - n) ltac:(lia)).
    replace (target - bw - n) with (Z.max 0 (target - (bw + n))) in H, Hfuel by lia.
    edestruct (IH (bw + n)) as (w' & Hrun & Hfiles & Hden & Hspace & Hent & ns & Htr);
      [| | rewrite Hrun].
    + cbn [space]. lia.
    + lia.
    + exists w'. split; [reflexivity |].
      cbn [files denied space entropy drawn trace] in *.
      repeat split; try assumption.
      * rewrite Hfiles, alter_alter_eq. apply alter_ext. intros old _. unfold compose.
        replace (target - (bw + n)) with (target - bw - n) by lia.
        rewrite Hsplit.
        rewrite (random_bytes_app w _ _ (alter (fun old0 => old0 ++ random_bytes w (Z.to_nat n)) f (files w))
                   (denied w) (space w - Z.to_nat n)%nat (trace w ++ [EvWrite f (Z.to_nat n)])).
        rewrite take_app, random_bytes_length.
        rewrite (take_ge (random_bytes w (Z.to_nat n))) by (rewrite random_bytes_length; lia).
        rewrite app_assoc. reflexivity.
      * exists (Z.to_nat n :: ns). rewrite Htr, <- app_assoc. reflexivity.
  - eexists. split; [reflexivity |].
    cbn [files denied space entropy drawn trace].
    repeat split.
    + apply alter_ext. intros old _. f_equal.
      rewrite Hsplit.
      rewrite (random_bytes_app w _ _ (files w) (denied w) (space w) (trace w)).
      rewrite take_app, random_bytes_length.
      replace (space w - Z.to_nat n)%nat with 0%nat by lia.
      rewrite take_0, app_nil_r. reflexivity.
    + exists [Z.to_nat n]. reflexivity.
Qed.

End Loop.

(** ** The whole call *)

Section Run.

Context `{FloatRepr}.

Lemma stdout_app (w : world) fs dn sp en dr (evs : list event) :
  stdout (World fs dn sp en dr (trace w ++ evs))
  = stdout w
    ++ omap (fun ev => match ev with EvPrint line => Some line | _ => None end) evs.
Proof. unfold stdout. cbn [trace]. apply omap_app. Qed.

Lemma stdout_writes (f : handle) (ns : list nat) :
  omap (fun ev => match ev with EvPrint line => Some line | _ => None end)
       (map (EvWrite f) ns) = [].
Proof. induction ns as [| n ns IH]; [reflexivity | exact IH]. Qed.

Lemma writes_of_writes (f : handle) (ns : list nat) :
  omap (fun ev => match ev with EvWrite p n => Some (p, n) | _ => None end)
       (map (EvWrite f) ns) = map (fun n => (f, n)) ns.
Proof.
  induction ns as [| n ns IH]; [reflexivity |].
  change (map (fun n0 => (f, n0)) (n :: ns)) with ((f, n) :: map (fun n0 => (f, n0)) ns).
  rewrite <- IH. reflexivity.
Qed.

(** The size computation fails: nothing is opened, nothing printed. *)
Lemma generate_random_file_raise (fuel : nat) (filename : string)
    (size_gb : pynum) (e : exn) (w : world) :
  target_bytes size_gb = Raise e ->
  generate_random_file fuel filename size_gb w = Some (Raise e, w).
Proof. intros Ht. unfold generate_random_file, bind. rewrite Ht. reflexivity. Qed.

(** The path cannot be opened. *)
Lemma generate_random_file_denied (fuel : nat) (filename : string)
    (size_gb : pynum) (t : Z) (w : world) :
  target_bytes size_gb = Ok t ->
  filename ∈ denied w ->
  generate_random_file fuel filename size_gb w = Some (Raise OSError, w).
Proof.
  intros Ht Hd. unfold generate_random_file, bind. rewrite Ht.
  cbn [lift_result]. unfold ret, with_open_wb, open_wb.
  rewrite decide_True by assumption. reflexivity.
Qed.

(** The call succeeds: the path opens and the device has room. *)
Lemma generate_random_file_ok (fuel : nat) (filename : string)
    (size_gb : pynum) (t : Z) (w : world) :
  target_bytes size_gb = Ok t ->
  filename ∉ denied w ->
  (Z.to_nat t <= space w)%nat ->
  (Z.to_nat (chunk_count (Z.max 0 t)) < fuel)%nat ->
  generate_random_file fuel filename size_gb w
  = Some (Ok tt, after_run filename size_gb (Z.max 0 t) w).
Proof.
  intros Ht Hd Hsp Hfuel. unfold generate_random_file, bind. rewrite Ht.
  cbn [lift_result]. unfold ret, with_open_wb, open_wb.
  rewrite decide_False by assumption.
  rewrite while_loop_ok; cbn [space]; rewrite ?Z.sub_0_r; try assumption.
  unfold print, f_close, after_chunks, after_run.
  cbn [files denied space entropy drawn trace].
  f_equal. f_equal. f_equal.
  - rewrite alter_insert_eq. reflexivity.
  - rewrite <- !app_assoc. reflexivity.
Qed.

(** The device fills up: [OSError], a partial file, nothing printed. *)
Lemma generate_random_file_full (fuel : nat) (filename : string)
    (size_gb : pynum) (t : Z) (w : world) :
  target_bytes size_gb = Ok t ->
  filename ∉ denied w ->
  (space w < Z.to_nat t)%nat ->
  (Z.to_nat (chunk_count (Z.max 0 t)) < fuel)%nat ->
  exists w' : world,
    generate_random_file fuel filename size_gb w = Some (Raise OSError, w') /\
    files w' = <[filename := take (space w) (random_bytes w (Z.to_nat t))]> (files w) /\
    stdout w' = stdout w.
Proof.
  intros Ht Hd Hsp Hfuel. unfold generate_random_file, bind. rewrite Ht.
  cbn [lift_result]. unfold ret, with_open_wb, open_wb.
  rewrite decide_False by assumption.
  edestruct (while_loop_full fuel filename t 0) as (w' & Hrun & Hf & _ & _ & _ & ns & Htr);
    [| | rewrite Hrun].
  - cbn [space]. rewrite Z.sub_0_r. exact Hsp.
  - rewrite Z.sub_0_r. exact Hfuel.
  - eexists. split; [reflexivity |].
    cbn [files denied space entropy drawn trace] in *. split.
    + unfold f_close. cbn [files]. rewrite Hf, alter_insert_eq, Z.sub_0_r.
      reflexivity.
    + unfold f_close. rewrite Htr, <- !app_assoc, stdout_app.
      rewrite omap_app. cbn [omap]. rewrite omap_app, stdout_writes.
      apply app_nil_r.
Qed.

Lemma generate_random_file_fuel_mono (fuel fuel' : nat) (filename : string)
    (size_gb : pynum) (w : world) (out : result unit * world) :
  (fuel <= fuel')%nat ->
  generate_random_file fuel filename size_gb w = Some out ->
  generate_random_file fuel' filename size_gb w = Some out.
Proof.
  intros Hle. unfold generate_random_file, bind, with_open_wb.
  destruct (lift_result (target_bytes size_gb) w) as [[[t | e] w0] |]; try (intros; assumption).
  destruct (open_wb filename w0) as [[[f | e] w1] |]; try (intros; assumption).
  destruct (while_loop fuel f t 0 w1) as [[r w2] |] eqn:Hloop; [| discriminate].
  rewrite (while_loop_fuel_mono fuel fuel' f t 0 w1 (r, w2) Hle Hloop).
  intros; assumption.
Qed.

(** Every finished call is one of the four above. *)
Lemma generate_random_file_cases (fuel : nat) (filename : string)
    (size_gb : pynum) (w : world) (r : result unit) (w' : world) :
  generate_random_file fuel filename size_gb w = Some (r, w') ->
  (exists e, target_bytes size_gb = Raise e /\ r = Raise e /\ w' = w) \/
  (exists t, target_bytes size_gb = Ok t /\ filename ∈ denied w /\
             r = Raise OSError /\ w' = w) \/
  (exists t, target_bytes size_gb = Ok t /\ (filename ∉ denied w) /\
             (space w < Z.to_nat t)%nat /\ r = Raise OSError /\
             files w' = <[filename := take (space w) (random_bytes w (Z.to_nat t))]> (files w) /\
             stdout w' = stdout w) \/
  (exists t, target_bytes size_gb = Ok t /\ (filename ∉ denied w) /\
             (Z.to_nat t <= space w)%nat /\ r = Ok tt /\
             w' = after_run filename size_gb (Z.max 0 t) w).
Proof.
  intros Hrun.
  destruct (target_bytes size_gb) as [t | e] eqn:Ht.
  - destruct (decide (filename ∈ denied w)) as [Hd | Hd].
    + rewrite (generate_random_file_denied fuel filename size_gb t w Ht Hd) in Hrun.
      injection Hrun as <- <-. right. left. exists t. auto.
    + apply (generate_random_file_fuel_mono fuel (fuel + enough_fuel t)) in Hrun; [| lia].
      destruct (le_lt_dec (Z.to_nat t) (space w)) as [Hfit | Hfull].
      * rewrite (generate_random_file_ok _ filename size_gb t w Ht Hd Hfit) in Hrun
          by (unfold enough_fuel; lia).
        injection Hrun as <- <-. right. right. right. exists t. auto.
      * destruct (generate_random_file_full (fuel + enough_fuel t) filename size_gb t w Ht Hd Hfull)
          as (w'' & Hrun' & Hf & Hout); [unfold enough_fuel; lia |].
        rewrite Hrun' in Hrun. injection Hrun as <- <-.
        right. right. left. exists t. auto 10.
  - rewrite (generate_random_file_raise fuel filename size_gb e w Ht) in Hrun.
    injection Hrun as <- <-. left. exists e. auto.
Qed.

(** What a successful call leaves, read off [after_run]. *)
Lemma file_size_after_run (filename : string) (size_gb : pynum) (t : Z) (w : world) :
  file_size (after_run filename size_gb (Z.max 0 t) w) filename = Some (Z.max 0 t).
Proof.
  unfold file_size, after_run. cbn [files]. rewrite lookup_insert_eq.
  cbn [fmap option_fmap option_map]. rewrite random_bytes_length. f_equal. lia.
Qed.

Lemma stdout_after_run (filename : string) (size_gb : pynum) (t : Z) (w : world) :
  stdout (after_run filename size_gb t w) = stdout w ++ [message filename size_gb].
Proof.
  unfold after_run. rewrite stdout_app. f_equal.
  change (?a :: ?l) with ([a] ++ l) at 1.
  rewrite !omap_app, stdout_writes. reflexivity.
Qed.

Lemma writes_after_run (filename : string) (size_gb : pynum) (t : Z) (w : world) :
  writes (after_run filename size_gb t w)
  = writes w ++ map (fun n => (filename, n)) (chunk_sizes t).
Proof.
  unfold after_run, writes. cbn [trace].
  change (?a :: ?l) with ([a] ++ l) at 1.
  rewrite !omap_app, writes_of_writes. cbn [omap list_omap].
  rewrite !app_nil_r. reflexivity.
Qed.

End Run.

(** ** Iteration boundaries *)

Section Boundaries.

(** One pass that does not raise: [bytes_written] moves up by the chunk
    written, and the chunk is appended to the file. *)
Lemma loop_body_pass (f : handle) (target bw : Z) (w : world) (bw' : Z) (w' : world) :
  bw < target ->
  loop_body f target bw w = Some (Ok bw', w') ->
  let n := Z.min chunk_size (target - bw) in
  1 <= n /\ bw' = bw + n /\ bw < bw' <= target /\
  files w' = alter (fun old => old ++ random_bytes w (Z.to_nat n)) f (files w) /\
  trace w' = trace w ++ [EvWrite f (Z.to_nat n)].
Proof.
  intros Hlt Hbody. rewrite loop_body_eq in Hbody by assumption. cbv zeta in *.
  pose proof chunk_size_pos.
  destruct (decide _) in Hbody; [| discriminate].
  injection Hbody as <- <-. cbn [files trace]. repeat split; lia.
Qed.

(** One pass that raises: the file has grown by at most the chunk. *)
Lemma loop_body_raise (f : handle) (target bw : Z) (w : world) (e : exn) (w' : world) :
  bw < target ->
  loop_body f target bw w = Some (Raise e, w') ->
  let n := Z.min chunk_size (target - bw) in
  e = OSError /\ (space w < Z.to_nat n)%nat /\
  files w' = alter (fun old => old ++ take (space w) (random_bytes w (Z.to_nat n))) f (files w).
Proof.
  intros Hlt Hbody. rewrite loop_body_eq in Hbody by assumption. cbv zeta in *.
  destruct (decide _) in Hbody; [discriminate |].
  injection Hbody as <- <-. cbn [files]. repeat split; lia.
Qed.


Lemma file_size_alter_app (w w' : world) (f : handle) (k : Z) (data : list Byte.byte) :
  file_size w f = Some k ->
  files w' = alter (fun old => old ++ data) f (files w) ->
  file_size w' f = Some (k + Z.of_nat (length data)) /\
  content w' f = content w f ++ data.
Proof.
  unfold file_size, content. intros Hk ->. rewrite lookup_alter_eq.
  destruct (files w !! f) as [old |]; simplify_eq/=.
  rewrite length_app. split; [f_equal; lia | reflexivity].
Qed.

Lemma loop_reach_trans (f : handle) (target : Z) (s1 s2 s3 : Z * world) :
  loop_reach f target s1 s2 -> loop_reach f target s2 s3 -> loop_reach f target s1 s3.
Proof.
  induction 1 as [s | bw w bw' w' s Hlt Hbody _ IH]; intros H23; [exact H23 |].
  eapply reach_pass; [exact Hlt | exact Hbody | apply IH, H23].
Qed.

(** What every boundary inherits from an earlier one. *)
Lemma loop_reach_inv (f : handle) (target : Z) (s s' : Z * world) :
  loop_reach f target s s' ->
  forall k : Z,
    s.1 <= target ->
    file_size s.2 f = Some (k + s.1) ->
    s.1 <= s'.1 /\ s'.1 <= target /\
    file_size s'.2 f = Some (k + s'.1) /\
    content s.2 f `prefix_of` content s'.2 f.
Proof.
  induction 1 as [s | bw w bw' w' s Hlt Hbody _ IH]; intros k Hle Hsize.
  - repeat split; [lia | exact Hle | exact Hsize | reflexivity].
  - cbn [fst snd] in *.
    destruct (loop_body_pass f target bw w bw' w' Hlt Hbody) as (Hn & -> & Hb & Hf & _).
    destruct (file_size_alter_app w w' f _ _ Hsize Hf) as [Hsize' Hcontent].
    rewrite random_bytes_length in Hsize'.
    destruct (IH k) as (H1 & H2 & H3 & H4).
    + lia.
    + rewrite Hsize'. f_equal. lia.
    + repeat split; [lia | exact H2 | exact H3 |].
      etransitivity; [| exact H4]. rewrite Hcontent. apply prefix_app_r. reflexivity.
Qed.

(** The boundaries are those of the loop: a finished loop went through
    passes that did not raise, to the state where its test failed or
    its body raised. *)
Lemma while_loop_reach (fuel : nat) (f : handle) (target bw : Z) (w : world)
    (r : result Z) (w' : world) :
  while_loop fuel f target bw w = Some (r, w') ->
  exists (bw1 : Z) (w1 : world),
    loop_reach f target (bw, w) (bw1, w1) /\
    ((r = Ok bw1 /\ w' = w1 /\ target <= bw1) \/
     (exists e, r = Raise e /\ bw1 < target /\
                loop_body f target bw1 w1 = Some (Raise e, w'))).
Proof.
  revert bw w. induction fuel as [| fuel IH]; intros bw w Hrun; [discriminate |].
  cbn [while_loop] in Hrun. destruct (Z.ltb_spec bw target) as [Hlt | Hge].
  - unfold bind in Hrun.
    destruct (loop_body f target bw w) as [[[bw2 | e] w2] |] eqn:Hbody; [| | discriminate].
    + destruct (IH bw2 w2 Hrun) as (bw1 & w1 & Hreach & Hend).
      exists bw1, w1. split; [| exact Hend].
      eapply reach_pass; eassumption.
    + injection Hrun as <- <-. exists bw, w. split; [apply reach_here |].
      right. exists e. auto.
  - injection Hrun as <- <-. exists bw, w. split; [apply reach_here |].
    left. auto.
Qed.

End Boundaries.

(** ** What every finished loop and call did *)

Section Traces.

Context `{FloatRepr}.

(** The writes of a finished loop, whether it ended normally or by an
    exception: each passes between one byte and [chunk_size] bytes, the
    random source advanced by their sum, and no other file changed. *)
Lemma while_loop_trace (fuel : nat) (f : handle) (target bw : Z) (w : world)
    (r : result Z) (w' : world) :
  while_loop fuel f target bw w = Some (r, w') ->
  exists ns : list nat,
    trace w' = trace w ++ map (EvWrite f) ns /\
    Forall (fun n => 1 <= Z.of_nat n <= chunk_size) ns /\
    drawn w' = (drawn w + sum_list ns)%nat /\
    (forall p : string, p <> f -> files w' !! p = files w !! p).
Proof.
  revert bw w. induction fuel as [| fuel IH]; intros bw w Hrun; [discriminate |].
  cbn [while_loop] in Hrun. destruct (Z.ltb_spec bw target) as [Hlt | Hge].
  - unfold bind in Hrun. rewrite loop_body_eq in Hrun by assumption. cbv zeta in Hrun.
    set (n := Z.min chunk_size (target - bw)) in *.
    assert (Hn : 1 <= n <= chunk_size) by (pose proof chunk_size_pos; lia).
    destruct (decide _) in Hrun.
    + destruct (IH _ _ Hrun) as (ns & Htr & Hall & Hdr & Hfr).
      cbn [files denied space entropy drawn trace] in *.
      exists (Z.to_nat n :: ns). repeat split.
      * rewrite Htr, <- app_assoc. reflexivity.
      * constructor; [lia | exact Hall].
      * rewrite Hdr.
        change (sum_list (Z.to_nat n :: ns)) with (Z.to_nat n + sum_list ns)%nat. lia.
      * intros p Hp. rewrite Hfr by assumption. apply lookup_alter_ne. congruence.
    + injection Hrun as <- <-. cbn [files denied space entropy drawn trace].
      exists [Z.to_nat n]. repeat split.
      * constructor; [lia | constructor].
      * change (sum_list [Z.to_nat n]) with (Z.to_nat n + 0)%nat. lia.
      * intros p Hp. apply lookup_alter_ne. congruence.
  - injection Hrun as <- <-. exists []. repeat split.
    + symmetry. apply app_nil_r.
    + constructor.
    + change (sum_list []) with 0%nat. lia.
Qed.

(** Every finished call either failed before it opened the file, and
    left the world as it was, or added the events of one [with] block
    and, on success only, the line. *)
Lemma generate_random_file_trace (fuel : nat) (filename : string)
    (size_gb : pynum) (w : world) (r : result unit) (w' : world) :
  generate_random_file fuel filename size_gb w = Some (r, w') ->
  (w' = w /\ exists e, r = Raise e /\
                       (target_bytes size_gb = Raise e \/
                        (e = OSError /\ filename ∈ denied w))) \/
  ((filename ∉ denied w) /\
   exists ns : list nat,
     trace w'
     = trace w ++ call_events filename ns
                    (match r with Ok _ => Some (message filename size_gb) | Raise _ => None end) /\
     Forall (fun n => 1 <= Z.of_nat n <= chunk_size) ns /\
     drawn w' = (drawn w + sum_list ns)%nat /\
     (forall p : string, p <> filename -> files w' !! p = files w !! p)).
Proof.
  unfold generate_random_file, bind. intros Hrun.
  destruct (target_bytes size_gb) as [t | e] eqn:Ht; cbn [lift_result] in Hrun.
  - unfold ret, with_open_wb, open_wb in Hrun.
    destruct (decide (filename ∈ denied w)) as [Hd | Hd].
    + injection Hrun as <- <-. left. split; [reflexivity |]. exists OSError. auto.
    + right. split; [exact Hd |].
      destruct (while_loop fuel filename t 0 _) as [[rl wl] |] eqn:Hloop; [| discriminate].
      destruct (while_loop_trace _ _ _ _ _ _ _ Hloop) as (ns & Htr & Hall & Hdr & Hfr).
      cbn [files denied space entropy drawn trace] in *.
      exists ns. destruct rl as [bw' | e]; unfold print, f_close in Hrun;
        injection Hrun as <- <-; cbn [files denied space entropy drawn trace];
        (repeat split; [| exact Hall | exact Hdr |]).
      * rewrite Htr. unfold call_events. rewrite <- !app_assoc. reflexivity.
      * intros p Hp. rewrite Hfr by assumption. apply lookup_insert_ne. congruence.
      * rewrite Htr. unfold call_events. rewrite <- !app_assoc. reflexivity.
      * intros p Hp. rewrite Hfr by assumption. apply lookup_insert_ne. congruence.
  - unfold raise in Hrun. injection Hrun as <- <-. left. split; [reflexivity |].
    exists e. auto.
Qed.

Lemma sum_chunk_sizes (r : Z) : 0 <= r -> Z.of_nat (sum_list (chunk_sizes r)) = r.
Proof.
  intros Hr. unfold chunk_sizes.
  rewrite sum_list_with_app, sum_list_replicate.
  pose proof chunk_size_pos as Hc.
  pose proof (Z.div_pos r chunk_size Hr Hc) as Hq.
  pose proof (Z.mod_pos_bound r chunk_size Hc) as Hm.
  pose proof (Z.div_mod r chunk_size ltac:(lia)) as Hdm.
  destruct (Z.eqb_spec (r mod chunk_size) 0) as [H0 | H0].
  - change (sum_list []) with 0%nat. nia.
  - change (sum_list [Z.to_nat (r mod chunk_size)])
      with (Z.to_nat (r mod chunk_size) + 0)%nat. nia.
Qed.


End Traces.

Section CallEvents.

Lemma writes_call_events (w : world) fs dn sp en dr (filename : string)
    (ns : list nat) (line : option string) :
  writes (World fs dn sp en dr (trace w ++ call_events filename ns line))
  = writes w ++ map (fun n => (filename, n)) ns.
Proof.
  unfold writes, call_events. cbn [trace].
  rewrite !omap_app, writes_of_writes.
  destruct line; cbn [omap list_omap]; rewrite !app_nil_r; reflexivity.
Qed.

Lemma writes_of_trace (w w' : world) (filename : string) (ns : list nat)
    (line : option string) :
  trace w' = trace w ++ call_events filename ns line ->
  writes w' = writes w ++ map (fun n => (filename, n)) ns.
Proof.
  intros Htr.
  rewrite <- (writes_call_events w (files w') (denied w') (space w') (entropy w') (drawn w')
                filename ns line).
  unfold writes. cbn [trace]. rewrite Htr. reflexivity.
Qed.

End CallEvents.

(** ** The properties of [generate_random_file] *)

Section Claims.

Context `{FloatRepr}.

(** C1.  For a size that compares [>= 0], every successful call leaves
    at [filename] a file of exactly [floor(size_gb * 1024^3)] bytes, the
    floor taken on the exact rational value of the size; and the call
    does succeed when the product is finite, the path opens, the device
    has room and the loop has fuel for its passes. *)
Theorem C1_file_length (filename : string) (size_gb : pynum) :
  py_nonnegative size_gb = true ->
  (forall (fuel : nat) (w w' : world),
      generate_random_file fuel filename size_gb w = Some (Ok tt, w') ->
      exists q : Q,
        pynum_value size_gb = Some q /\
        file_size w' filename = Some (floor_GiB q)) /\
  (forall (t : Z) (fuel : nat) (w : world),
      target_bytes size_gb = Ok t ->
      filename ∉ denied w ->
      (Z.to_nat t <= space w)%nat ->
      (enough_fuel t <= fuel)%nat ->
      exists w' : world,
        generate_random_file fuel filename size_gb w = Some (Ok tt, w')).
Proof.
  intros Hnn. split.
  - intros fuel w w' Hrun.
    apply generate_random_file_cases in Hrun
      as [(e & _ & [=] & _) | [(t & _ & _ & [=] & _) | [(t & _ & _ & _ & [=] & _) |
          (t & Ht & _ & _ & _ & ->)]]].
    destruct (target_bytes_nonnegative size_gb t Hnn Ht) as (q & Hq & _ & -> & Hpos).
    exists q. split; [exact Hq |].
    rewrite file_size_after_run. f_equal. lia.
  - intros t fuel w Ht Hd Hsp Hfuel. eexists.
    apply generate_random_file_ok; eassumption.
Qed.


(** C3.  With a size that compares [== 0] and a path that can be opened
    the call succeeds: the file exists afterwards and is empty whatever
    was there before, the loop ends at its first test, no write is made
    and no random byte is drawn. *)
Theorem C3_zero_size (filename : string) (size_gb : pynum) (fuel : nat) (w : world) :
  py_zero size_gb = true ->
  filename ∉ denied w ->
  (0 < fuel)%nat ->
  exists w' : world,
    generate_random_file fuel filename size_gb w = Some (Ok tt, w') /\
    files w' !! filename = Some [] /\
    file_size w' filename = Some 0 /\
    writes w' = writes w /\
    drawn w' = drawn w /\
    trace w' = trace w ++ [EvOpen filename; EvClose filename;
                           EvPrint (message filename size_gb)] /\
    forall w1 : world, while_loop fuel filename 0 0 w1 = Some (Ok 0, w1).
Proof.
  intros Hz Hd Hfuel. pose proof (target_bytes_zero size_gb Hz) as Ht.
  exists (after_run filename size_gb 0 w). repeat split.
  - apply (generate_random_file_ok fuel filename size_gb 0 w Ht Hd); [lia |].
    exact Hfuel.
  - unfold after_run. cbn [files]. apply lookup_insert_eq.
  - apply (file_size_after_run filename size_gb 0 w).
  - rewrite writes_after_run, chunk_sizes_zero. apply app_nil_r.
  - unfold after_run. cbn [drawn]. change (Z.to_nat 0) with 0%nat. lia.
  - intros w1. destruct fuel as [| fuel]; [lia | reflexivity].
Qed.

(** C4.  With a positive target of [t] bytes, every successful call
    makes exactly [ceil(t / chunk_size)] calls to [f.write]; every one
    but the last passes [chunk_size] bytes; when [t] is a multiple of
    [chunk_size] they are [t / chunk_size] writes of [chunk_size] bytes,
    otherwise the last one passes [t mod chunk_size] bytes; and a target
    below [chunk_size] is written by one call of [t] bytes.  The call
    succeeds when the path opens, the device has room and the loop has
    fuel for its passes. *)
Theorem C4_chunk_writes (filename : string) (size_gb : pynum) (t : Z) :
  target_bytes size_gb = Ok t ->
  0 < t ->
  (forall (fuel : nat) (w w' : world),
      generate_random_file fuel filename size_gb w = Some (Ok tt, w') ->
      exists ws : list nat,
        writes w' = writes w ++ map (fun n => (filename, n)) ws /\
        Z.of_nat (length ws) = chunk_count t /\
        (chunk_count t - 1) * chunk_size < t <= chunk_count t * chunk_size /\
        (forall (i n : nat),
            ws !! i = Some n -> (S i < length ws)%nat -> Z.of_nat n = chunk_size) /\
        (t mod chunk_size = 0 ->
         ws = replicate (Z.to_nat (t / chunk_size)) (Z.to_nat chunk_size)) /\
        (t mod chunk_size <> 0 ->
         Z.of_nat (length ws) = t / chunk_size + 1 /\
         last ws = Some (Z.to_nat (t mod chunk_size))) /\
        (t < chunk_size -> ws = [Z.to_nat t])) /\
  (forall (fuel : nat) (w : world),
      filename ∉ denied w ->
      (Z.to_nat t <= space w)%nat ->
      (enough_fuel t <= fuel)%nat ->
      exists w' : world,
        generate_random_file fuel filename size_gb w = Some (Ok tt, w')).
Proof.
  intros Ht Hpos. split.
  - intros fuel w w' Hrun.
    apply generate_random_file_cases in Hrun
      as [(e & _ & [=] & _) | [(t' & _ & _ & [=] & _) | [(t' & _ & _ & _ & [=] & _) |
          (t' & Ht' & _ & _ & _ & ->)]]].
    rewrite Ht in Ht'. injection Ht' as <-. rewrite Z.max_r by lia.
    exists (chunk_sizes t). split; [apply writes_after_run |].
    split; [apply chunk_sizes_length; lia |].
    split; [chunk_lia |].
    assert (Hk : 0 <= t / chunk_size) by (apply Z.div_pos; [lia | apply chunk_size_pos]).
    unfold chunk_sizes. repeat split.
    + intros i n Hi Hlen. rewrite length_app, length_replicate in Hlen.
      assert (Hik : (i < Z.to_nat (t / chunk_size))%nat).
      { destruct (t mod chunk_size =? 0); simpl length in Hlen; lia. }
      rewrite lookup_app_l in Hi by (rewrite length_replicate; exact Hik).
      apply lookup_replicate in Hi as [-> _].
      apply Z2Nat.id. pose proof chunk_size_pos. lia.
    + intros ->. apply app_nil_r.
    + destruct (Z.eqb_spec (t mod chunk_size) 0) as [Hm | Hm]; [contradiction |].
      rewrite length_app, length_replicate. simpl length. lia.
    + destruct (Z.eqb_spec (t mod chunk_size) 0) as [Hm | Hm]; [contradiction |].
      apply last_snoc.
    + intros Hlt. rewrite Z.div_small, Z.mod_small by lia.
      destruct (Z.eqb_spec t 0); [lia | reflexivity].
  - intros fuel w Hd Hsp Hfuel. eexists.
    apply generate_random_file_ok; eassumption.
Qed.

(** C5.  Running the call on a path whose file exists overwrites it:
    [open] leaves the file empty, and after a successful call with a
    size that compares [>= 0] the file holds the freshly drawn bytes
    only, [floor(size_gb * 1024^3)] of them, whatever it held before;
    so it is after a second call on the path of a first one. *)
Theorem C5_overwrite (filename : string) (size_gb : pynum) :
  py_nonnegative size_gb = true ->
  (forall (w w1 : world) (f : string),
      open_wb filename w = Some (Ok f, w1) -> files w1 !! filename = Some []) /\
  (forall (fuel : nat) (w w' : world) (old : list Byte.byte),
      files w !! filename = Some old ->
      generate_random_file fuel filename size_gb w = Some (Ok tt, w') ->
      exists q : Q,
        pynum_value size_gb = Some q /\
        file_size w' filename = Some (floor_GiB q) /\
        files w' !! filename = Some (random_bytes w (Z.to_nat (floor_GiB q)))) /\
  (forall (size_gb0 : pynum) (fuel0 fuel : nat) (w0 w1 w2 : world),
      generate_random_file fuel0 filename size_gb0 w0 = Some (Ok tt, w1) ->
      generate_random_file fuel filename size_gb w1 = Some (Ok tt, w2) ->
      is_Some (files w1 !! filename) /\
      exists q : Q,
        pynum_value size_gb = Some q /\
        file_size w2 filename = Some (floor_GiB q)).
Proof.
  intros Hnn.
  assert (Hone : forall (fuel : nat) (w w' : world),
             generate_random_file fuel filename size_gb w = Some (Ok tt, w') ->
             exists q : Q,
               pynum_value size_gb = Some q /\
               file_size w' filename = Some (floor_GiB q) /\
               files w' !! filename = Some (random_bytes w (Z.to_nat (floor_GiB q)))).
  { intros fuel w w' Hrun.
    apply generate_random_file_cases in Hrun
      as [(e & _ & [=] & _) | [(t & _ & _ & [=] & _) | [(t & _ & _ & _ & [=] & _) |
          (t & Ht & _ & _ & _ & ->)]]].
    destruct (target_bytes_nonnegative size_gb t Hnn Ht) as (q & Hq & _ & -> & Hpos).
    exists q. split; [exact Hq |].
    rewrite file_size_after_run, Z.max_r by lia. split; [reflexivity |].
    unfold after_run. cbn [files]. apply lookup_insert_eq. }
  split; [| split].
  - intros w w1 f. unfold open_wb. destruct (decide _); [discriminate |].
    intros [= _ <-]. cbn [files]. apply lookup_insert_eq.
  - intros fuel w w' old _. apply Hone.
  - intros size_gb0 fuel0 fuel w0 w1 w2 Hrun0 Hrun. split.
    + apply generate_random_file_cases in Hrun0
        as [(e & _ & [=] & _) | [(t & _ & _ & [=] & _) | [(t & _ & _ & _ & [=] & _) |
            (t & _ & _ & _ & _ & ->)]]].
      unfold after_run. cbn [files]. rewrite lookup_insert_eq. eexists. reflexivity.
    + destruct (Hone fuel w1 w2 Hrun) as (q & Hq & Hsize & _). exists q. auto.
Qed.

(** C6.  A call that succeeds prints one line, the last thing it does
    after the loop and the close of the file:
    [File '<filename>' of <size_gb>GB has been created.]  A call that
    raises, in the size computation, at [open] or in a write, prints
    nothing. *)
Theorem C6_confirmation_line (fuel : nat) (filename : string) (size_gb : pynum)
    (w : world) (r : result unit) (w' : world) :
  generate_random_file fuel filename size_gb w = Some (r, w') ->
  match r with
  | Ok _ =>
      stdout w'
      = stdout w ++ ["File '" +:+ filename +:+ "' of " +:+ py_str size_gb
                     +:+ "GB has been created."] /\
      exists ws : list nat,
        trace w'
        = trace w ++ [EvOpen filename] ++ map (EvWrite filename) ws
                  ++ [EvClose filename; EvPrint (message filename size_gb)]
  | Raise _ => stdout w' = stdout w
  end.
Proof.
  intros Hrun.
  apply generate_random_file_cases in Hrun
    as [(e & _ & -> & ->) | [(t & _ & _ & -> & ->) | [(t & _ & _ & _ & -> & _ & Hout) |
        (t & _ & _ & _ & -> & ->)]]]; try reflexivity.
  - exact Hout.
  - split; [apply stdout_after_run |].
    exists (chunk_sizes (Z.max 0 t)). reflexivity.
Qed.


(** C8.  The invariant of the loop, for a target that is not negative
    and a file just opened.  At every iteration boundary
    [0 <= bytes_written <= target] and the file holds exactly
    [bytes_written] bytes; from one boundary to a later one
    [bytes_written] does not decrease and the file only grows, the
    earlier content staying as a prefix; a pass that raises leaves a
    file that extends the earlier one and is no longer than the target.
    The boundaries are those the loop goes through. *)
Theorem C8_loop_invariant (f : string) (target : Z) (w0 : world) :
  0 <= target ->
  files w0 !! f = Some [] ->
  (forall (bw : Z) (w : world),
      loop_reach f target (0, w0) (bw, w) ->
      0 <= bw <= target /\
      file_size w f = Some bw /\
      (forall (bw' : Z) (w' : world),
          loop_reach f target (bw, w) (bw', w') ->
          bw <= bw' /\ content w f `prefix_of` content w' f) /\
      (forall (e : exn) (w' : world),
          bw < target ->
          loop_body f target bw w = Some (Raise e, w') ->
          exists n : Z,
            file_size w' f = Some n /\ bw <= n <= target /\
            content w f `prefix_of` content w' f)) /\
  (forall (fuel : nat) (r : result Z) (w' : world),
      while_loop fuel f target 0 w0 = Some (r, w') ->
      exists (bw1 : Z) (w1 : world),
        loop_reach f target (0, w0) (bw1, w1) /\
        ((r = Ok bw1 /\ w' = w1 /\ bw1 = target) \/
         (exists e, r = Raise e /\ bw1 < target /\
                    loop_body f target bw1 w1 = Some (Raise e, w')))).
Proof.
  intros Htarget Hopen.
  assert (Hsize0 : file_size w0 f = Some (0 + 0)).
  { unfold file_size. rewrite Hopen. reflexivity. }
  assert (Hinv : forall (bw : Z) (w : world),
             loop_reach f target (0, w0) (bw, w) ->
             0 <= bw <= target /\ file_size w f = Some bw).
  { intros bw w Hreach.
    destruct (loop_reach_inv f target _ _ Hreach 0 Htarget Hsize0) as (H1 & H2 & H3 & _).
    cbn [fst snd] in *. rewrite Z.add_0_l in H3. auto. }
  split.
  - intros bw w Hreach. destruct (Hinv bw w Hreach) as [Hbw Hsize].
    split; [exact Hbw |]. split; [exact Hsize |]. split.
    + intros bw' w' Hreach'.
      destruct (loop_reach_inv f target _ _ Hreach' 0) as (H1 & _ & _ & H4);
        cbn [fst snd]; [lia | rewrite Z.add_0_l; exact Hsize |].
      cbn [fst snd] in *. auto.
    + intros e w' Hlt Hbody.
      destruct (loop_body_raise f target bw w e w' Hlt Hbody) as (_ & Hsp & Hf).
      destruct (file_size_alter_app w w' f _ _ Hsize Hf) as [Hsize' Hcontent].
      eexists. split; [exact Hsize' |]. split.
      * rewrite length_take, random_bytes_length. lia.
      * rewrite Hcontent. apply prefix_app_r. reflexivity.
  - intros fuel r w' Hrun.
    destruct (while_loop_reach fuel f target 0 w0 r w' Hrun)
      as (bw1 & w1 & Hreach & [(-> & -> & Hge) | Hraise]).
    + exists bw1, w1. split; [exact Hreach |]. left.
      destruct (Hinv bw1 w1 Hreach) as [Hbw _]. repeat split; lia.
    + exists bw1, w1. split; [exact Hreach |]. right. exact Hraise.
Qed.

(** C9.  The length of the file a successful call leaves depends on the
    size only: two successful calls with the same size leave files of
    the same length, whatever the worlds they run in and the bytes
    their random sources deliver. *)
Theorem C9_same_length (filename : string) (size_gb : pynum)
    (fuel1 fuel2 : nat) (w1 w2 w1' w2' : world) :
  generate_random_file fuel1 filename size_gb w1 = Some (Ok tt, w1') ->
  generate_random_file fuel2 filename size_gb w2 = Some (Ok tt, w2') ->
  file_size w1' filename = file_size w2' filename /\
  exists t : Z,
    target_bytes size_gb = Ok t /\ file_size w1' filename = Some (Z.max 0 t).
Proof.
  intros Hrun1 Hrun2.
  apply generate_random_file_cases in Hrun1
    as [(e & _ & [=] & _) | [(t & _ & _ & [=] & _) | [(t & _ & _ & _ & [=] & _) |
        (t & Ht & _ & _ & _ & ->)]]].
  apply generate_random_file_cases in Hrun2
    as [(e & _ & [=] & _) | [(t' & _ & _ & [=] & _) | [(t' & _ & _ & _ & [=] & _) |
        (t' & Ht' & _ & _ & _ & ->)]]].
  rewrite Ht in Ht'. injection Ht' as <-.
  rewrite !file_size_after_run. split; [reflexivity |].
  exists t. auto.
Qed.


End Claims.

(** A call for five bytes in the sample world. *)
Lemma C1_witness :
  py_nonnegative (PyFloat five_bytes) = true /\
  generate_random_file (H := sample_repr) 2 "out.bin" (PyFloat five_bytes) sample_world
  = Some (Ok tt, after_run (H := sample_repr) "out.bin" (PyFloat five_bytes) 5 sample_world) /\
  exists q : Q,
    pynum_value (PyFloat five_bytes) = Some q /\
    file_size (after_run (H := sample_repr) "out.bin" (PyFloat five_bytes) 5 sample_world) "out.bin"
    = Some (floor_GiB q).
Proof.
  assert (Hnn : py_nonnegative (PyFloat five_bytes) = true) by (vm_compute; reflexivity).
  assert (Hrun : generate_random_file (H := sample_repr) 2 "out.bin" (PyFloat five_bytes) sample_world
                 = Some (Ok tt, after_run (H := sample_repr) "out.bin" (PyFloat five_bytes) 5 sample_world))
    by (vm_compute; reflexivity).
  split; [exact Hnn |]. split; [exact Hrun |].
  exact (proj1 (C1_file_length (H := sample_repr) "out.bin" (PyFloat five_bytes) Hnn)
               2%nat sample_world _ Hrun).
Defined.



(** The size [0] on a path that holds three bytes. *)
Lemma C3_witness :
  py_zero (PyInt 0) = true /\
  ("out.bin" ∉ denied sample_world_existing) /\
  (0 < 1)%nat /\
  exists w' : world,
    generate_random_file (H := sample_repr) 1 "out.bin" (PyInt 0) sample_world_existing
    = Some (Ok tt, w') /\
    files w' !! "out.bin" = Some [].
Proof.
  assert (Hz : py_zero (PyInt 0) = true) by reflexivity.
  assert (Hd : "out.bin" ∉ denied sample_world_existing) by apply not_elem_of_empty.
  assert (Hfuel : (0 < 1)%nat) by lia.
  split; [exact Hz |]. split; [exact Hd |]. split; [exact Hfuel |].
  destruct (C3_zero_size (H := sample_repr) "out.bin" (PyInt 0)
              1%nat sample_world_existing Hz Hd Hfuel) as (w' & Hrun & Hfile & _).
  exists w'. split; assumption.
Defined.

(** A call for 1.5 MiB: two writes, the last of half a mebibyte. *)
Lemma C4_witness :
  target_bytes (PyFloat mib_and_a_half) = Ok 1572864 /\
  0 < 1572864 /\
  exists w' : world,
    generate_random_file (H := sample_repr) 3 "out.bin" (PyFloat mib_and_a_half)
                         sample_world_large
    = Some (Ok tt, w') /\
    exists ws : list nat,
      writes w' = map (fun n => ("out.bin", n)) ws /\
      Z.of_nat (length ws) = 2 /\
      last ws = Some (Z.to_nat 524288).
Proof.
  assert (Ht : target_bytes (PyFloat mib_and_a_half) = Ok 1572864) by (vm_compute; reflexivity).
  assert (Hpos : 0 < 1572864) by lia.
  split; [exact Ht |]. split; [exact Hpos |].
  destruct (C4_chunk_writes (H := sample_repr) "out.bin" (PyFloat mib_and_a_half) 1572864 Ht Hpos)
    as [Hall Hsome].
  destruct (Hsome 3%nat sample_world_large) as [w' Hrun].
  - apply not_elem_of_empty.
  - unfold sample_world_large. cbn [space]. lia.
  - vm_compute. lia.
  - exists w'. split; [exact Hrun |].
    destruct (Hall 3%nat sample_world_large w' Hrun)
      as (ws & Hws & Hlen & _ & _ & _ & Hlast & _).
    exists ws. split; [exact Hws |]. split; [exact Hlen |].
    apply Hlast. vm_compute. discriminate.
Defined.

(** Five bytes written over a file of three. *)
Lemma C5_witness :
  py_nonnegative (PyFloat five_bytes) = true /\
  exists q : Q,
    pynum_value (PyFloat five_bytes) = Some q /\
    file_size (after_run (H := sample_repr) "out.bin" (PyFloat five_bytes) 5
                         sample_world_existing) "out.bin"
    = Some (floor_GiB q) /\
    files (after_run (H := sample_repr) "out.bin" (PyFloat five_bytes) 5
                     sample_world_existing) !! "out.bin"
    = Some (random_bytes sample_world_existing (Z.to_nat (floor_GiB q))).
Proof.
  assert (Hnn : py_nonnegative (PyFloat five_bytes) = true) by (vm_compute; reflexivity).
  split; [exact Hnn |].
  apply (proj1 (proj2 (C5_overwrite (H := sample_repr) "out.bin" (PyFloat five_bytes) Hnn))
               2%nat sample_world_existing _ [Byte.x01; Byte.x02; Byte.x03]).
  - vm_compute. reflexivity.
  - vm_compute. reflexivity.
Defined.

(** The line printed for the int [0]. *)
Lemma C6_witness :
  generate_random_file (H := sample_repr) 2 "out.bin" (PyInt 0) sample_world
  = Some (Ok tt, after_run (H := sample_repr) "out.bin" (PyInt 0) 0 sample_world) /\
  stdout (after_run (H := sample_repr) "out.bin" (PyInt 0) 0 sample_world)
  = stdout sample_world ++ ["File 'out.bin' of 0GB has been created."].
Proof.
  assert (Hrun : generate_random_file (H := sample_repr) 2 "out.bin" (PyInt 0) sample_world
                 = Some (Ok tt, after_run (H := sample_repr) "out.bin" (PyInt 0) 0 sample_world))
    by (vm_compute; reflexivity).
  split; [exact Hrun |].
  exact (proj1 (C6_confirmation_line (H := sample_repr) 2 "out.bin" (PyInt 0)
                  sample_world (Ok tt) _ Hrun)).
Defined.


(** The boundaries of a loop for five bytes. *)
Lemma C8_witness :
  0 <= 5 /\
  files sample_world_opened !! "out.bin" = Some [] /\
  forall (bw : Z) (w : world),
    loop_reach "out.bin" 5 (0, sample_world_opened) (bw, w) ->
    0 <= bw <= 5 /\ file_size w "out.bin" = Some bw.
Proof.
  assert (Ht : 0 <= 5) by lia.
  assert (Hopen : files sample_world_opened !! "out.bin" = Some [])
    by (vm_compute; reflexivity).
  split; [exact Ht |]. split; [exact Hopen |].
  intros bw w Hreach.
  destruct (proj1 (C8_loop_invariant "out.bin" 5 sample_world_opened Ht Hopen) bw w Hreach)
    as (Hbw & Hsize & _).
  split; assumption.
Defined.

(** Two calls for five bytes, with two random sources. *)
Lemma C9_witness :
  generate_random_file (H := sample_repr) 2 "out.bin" (PyFloat five_bytes) sample_world
  = Some (Ok tt, after_run (H := sample_repr) "out.bin" (PyFloat five_bytes) 5 sample_world) /\
  generate_random_file (H := sample_repr) 7 "out.bin" (PyFloat five_bytes) sample_world_other
  = Some (Ok tt, after_run (H := sample_repr) "out.bin" (PyFloat five_bytes) 5
                           sample_world_other) /\
  file_size (after_run (H := sample_repr) "out.bin" (PyFloat five_bytes) 5 sample_world)
            "out.bin"
  = file_size (after_run (H := sample_repr) "out.bin" (PyFloat five_bytes) 5
                         sample_world_other) "out.bin".
Proof.
  assert (Hrun1 : generate_random_file (H := sample_repr) 2 "out.bin" (PyFloat five_bytes)
                    sample_world
                  = Some (Ok tt, after_run (H := sample_repr) "out.bin" (PyFloat five_bytes) 5
                                           sample_world))
    by (vm_compute; reflexivity).
  assert (Hrun2 : generate_random_file (H := sample_repr) 7 "out.bin" (PyFloat five_bytes)
                    sample_world_other
                  = Some (Ok tt, after_run (H := sample_repr) "out.bin" (PyFloat five_bytes) 5
                                           sample_world_other))
    by (vm_compute; reflexivity).
  split; [exact Hrun1 |]. split; [exact Hrun2 |].
  exact (proj1 (C9_same_length (H := sample_repr) "out.bin" (PyFloat five_bytes)
                  2 7 sample_world sample_world_other _ _ Hrun1 Hrun2)).
Defined.



(** ** The script's own call, and calls that fail *)

Lemma main_target :
  target_bytes (PyInt 1) = Ok (1024 * chunk_size) /\
  chunk_count (1024 * chunk_size) = 1024 /\
  chunk_sizes (1024 * chunk_size) = replicate 1024 (Z.to_nat chunk_size).
Proof.
  split; [reflexivity |]. split; [reflexivity |].
  unfold chunk_sizes.
  change (1024 * chunk_size / chunk_size) with 1024.
  change (1024 * chunk_size mod chunk_size =? 0) with true.
  apply app_nil_r.
Qed.

(** With room on the device the script writes its gibibyte in 1024
    writes of one mebibyte and prints its line. *)
Lemma main_ok (w : world) :
  "random_1gb_file.bin" ∉ denied w ->
  (Z.to_nat (1024 * chunk_size) <= space w)%nat ->
  main (H := sample_repr) 1025 w
  = Some (Ok tt, after_run (H := sample_repr) "random_1gb_file.bin" (PyInt 1)
                           (1024 * chunk_size) w) /\
  message (H := sample_repr) "random_1gb_file.bin" (PyInt 1)
  = "File 'random_1gb_file.bin' of 1GB has been created.".
Proof.
  intros Hd Hsp. split; [| reflexivity].
  unfold main.
  rewrite (generate_random_file_ok (H := sample_repr) 1025 "random_1gb_file.bin" (PyInt 1)
             (1024 * chunk_size) w eq_refl Hd Hsp).
  - reflexivity.
  - change (chunk_count (Z.max 0 (1024 * chunk_size))) with 1024. lia.
Qed.

Example run_denied :
  generate_random_file (H := sample_repr) 2 "out.bin" (PyFloat five_bytes) sample_world_denied
  = Some (Raise OSError, sample_world_denied).
Proof. vm_compute. reflexivity. Qed.

Example run_disk_full :
  generate_random_file (H := sample_repr) 2 "out.bin" (PyFloat five_bytes) sample_world_small
  = Some (Raise OSError,
          World {[ "out.bin" := [Byte.x5a; Byte.xa5; Byte.x5a] ]} ∅ 0 sample_entropy 5
                [EvOpen "out.bin"; EvWrite "out.bin" 5; EvClose "out.bin"]).
Proof. vm_compute. reflexivity. Qed.

Example run_nan :
  generate_random_file (H := sample_repr) 2 "out.bin" (PyFloat nan) sample_world
  = Some (Raise ValueError, sample_world).
Proof. vm_compute. reflexivity. Qed.

Example run_out_of_fuel :
  generate_random_file (H := sample_repr) 1 "out.bin" (PyFloat five_bytes) sample_world = None.
Proof. vm_compute. reflexivity. Qed.

(** ** Further properties of the script *)

Section Extras.

Context `{FloatRepr}.

(** X1.  The call the script makes when it is run,
    [generate_random_file("random_1gb_file.bin", 1)]: when the path
    opens and the device has room for a gibibyte it succeeds, the file
    is [1024^3] bytes long, it was written by 1024 writes of
    [chunk_size] bytes each, and the line printed is
    [File 'random_1gb_file.bin' of 1GB has been created.] *)
Theorem X1_script_call (fuel : nat) (w : world) :
  "random_1gb_file.bin" ∉ denied w ->
  (Z.to_nat (1024 * chunk_size) <= space w)%nat ->
  (1025 <= fuel)%nat ->
  exists w' : world,
    main fuel w = Some (Ok tt, w') /\
    file_size w' "random_1gb_file.bin" = Some (1024 ^ 3) /\
    writes w' = writes w ++ replicate 1024 ("random_1gb_file.bin", Z.to_nat chunk_size) /\
    stdout w' = stdout w ++ ["File 'random_1gb_file.bin' of 1GB has been created."].
Proof.
  intros Hd Hsp Hfuel.
  exists (after_run "random_1gb_file.bin" (PyInt 1) (Z.max 0 (1024 * chunk_size)) w).
  repeat split.
  - unfold main. apply generate_random_file_ok; [reflexivity | exact Hd | exact Hsp |].
    change (chunk_count (Z.max 0 (1024 * chunk_size))) with 1024. lia.
  - apply file_size_after_run.
  - rewrite writes_after_run.
    change (Z.max 0 (1024 * chunk_size)) with (1024 * chunk_size).
    rewrite (proj2 (proj2 main_target)), fmap_replicate. reflexivity.
  - apply stdout_after_run.
Qed.

(** X2.  After a successful call the file holds exactly the next
    [target_bytes] bytes of the random source, in the order the source
    delivered them, and the source has advanced by exactly that many:
    writing in chunks drops, repeats and reorders nothing. *)
Theorem X2_content_is_stream (fuel : nat) (filename : string) (size_gb : pynum)
    (w w' : world) :
  generate_random_file fuel filename size_gb w = Some (Ok tt, w') ->
  exists t : Z,
    target_bytes size_gb = Ok t /\
    files w' !! filename = Some (map (entropy w) (seq (drawn w) (Z.to_nat t))) /\
    drawn w' = (drawn w + Z.to_nat t)%nat /\
    entropy w' = entropy w.
Proof.
  intros Hrun.
  apply generate_random_file_cases in Hrun
    as [(e & _ & [=] & _) | [(t & _ & _ & [=] & _) | [(t & _ & _ & _ & [=] & _) |
        (t & Ht & _ & _ & _ & ->)]]].
  exists t. split; [exact Ht |].
  unfold after_run. cbn [files drawn entropy].
  replace (Z.to_nat (Z.max 0 t)) with (Z.to_nat t) by lia.
  rewrite lookup_insert_eq. repeat split.
Qed.

(** X3.  The size is evaluated before the file is opened.  A NaN size
    raises [ValueError] and a size whose product with [1024 ** 3] is an
    infinity raises [OverflowError], in every world, also one where the
    path could not be opened, and the world is left exactly as it was:
    no file is created or truncated and nothing is printed.  Every other
    size, negative ones included, is accepted. *)
Theorem X3_bad_size_touches_nothing (fuel : nat) (filename : string)
    (size_gb : pynum) (w : world) :
  (py_isnan size_gb = true ->
   generate_random_file fuel filename size_gb w = Some (Raise ValueError, w)) /\
  (py_isnan size_gb = false -> product_infinite size_gb = true ->
   generate_random_file fuel filename size_gb w = Some (Raise OverflowError, w)) /\
  (py_isnan size_gb = false -> product_infinite size_gb = false ->
   exists t : Z, target_bytes size_gb = Ok t).
Proof.
  pose proof (target_bytes_errors size_gb) as Hcls.
  destruct (target_bytes size_gb) as [t | [ | | ]] eqn:Ht; try contradiction.
  - destruct Hcls as [Hnan Hinf]. repeat split; intros; try congruence. eauto.
  - destruct Hcls as [Hnan Hinf]. repeat split; intros; try congruence.
    apply generate_random_file_raise. exact Ht.
  - repeat split; intros; try congruence.
    apply generate_random_file_raise. exact Ht.
Qed.


(** X5.  In every finished call, successful or not, each [f.write]
    passes at least one byte and at most [chunk_size] bytes, so no
    buffer of random data is ever larger than a chunk; every write goes
    to [filename]; and the random source is asked for exactly as many
    bytes as are passed to [f.write]. *)
Theorem X5_writes_bounded (fuel : nat) (filename : string) (size_gb : pynum)
    (w : world) (r : result unit) (w' : world) :
  generate_random_file fuel filename size_gb w = Some (r, w') ->
  exists ns : list nat,
    writes w' = writes w ++ map (fun n => (filename, n)) ns /\
    Forall (fun n => 1 <= Z.of_nat n <= chunk_size) ns /\
    drawn w' = (drawn w + sum_list ns)%nat.
Proof.
  intros Hrun.
  destruct (generate_random_file_trace _ _ _ _ _ _ Hrun)
    as [[-> _] | (_ & ns & Htr & Hall & Hdr & _)].
  - exists []. repeat split; [symmetry; apply app_nil_r | constructor |].
    change (sum_list []) with 0%nat. lia.
  - exists ns. repeat split; [| exact Hall | exact Hdr].
    eapply writes_of_trace. exact Htr.
Qed.

(** X6.  The [with] block closes the file on every path.  A finished
    call either failed before it opened the file and added nothing to
    the trace, or it added one open, its writes and one close after the
    last write, also when a write raised; the line is printed after the
    close, and only by a call that succeeded. *)
Theorem X6_file_always_closed (fuel : nat) (filename : string) (size_gb : pynum)
    (w : world) (r : result unit) (w' : world) :
  generate_random_file fuel filename size_gb w = Some (r, w') ->
  (trace w' = trace w /\ exists e, r = Raise e) \/
  exists ns : list nat,
    trace w'
    = trace w ++ [EvOpen filename] ++ map (EvWrite filename) ns ++ [EvClose filename]
              ++ match r with
                 | Ok _ => [EvPrint (message filename size_gb)]
                 | Raise _ => []
                 end.
Proof.
  intros Hrun.
  destruct (generate_random_file_trace _ _ _ _ _ _ Hrun)
    as [(-> & e & -> & _) | (_ & ns & Htr & _)].
  - left. split; [reflexivity | eauto].
  - right. exists ns. rewrite Htr. unfold call_events. destruct r; reflexivity.
Qed.



(** X9.  [int] truncates toward zero.  For a size that compares [< 0]
    and whose product is finite the target is the ceiling of the exact
    product [size_gb * 1024^3], not its floor, and is at most zero: a
    negative size never asks for a byte. *)
Theorem X9_negative_size_truncates_up (size_gb : pynum) (t : Z) :
  py_negative size_gb = true ->
  target_bytes size_gb = Ok t ->
  exists q : Q,
    pynum_value size_gb = Some q /\ (q < 0)%Q /\
    t = ceil_GiB q /\ floor_GiB q <= t <= 0.
Proof.
  intros Hneg Ht.
  destruct (target_bytes_negative_ceil size_gb t Hneg Ht) as (q & Hq & Hlt & ->).
  exists q. split; [exact Hq |]. split; [exact Hlt |]. split; [reflexivity |].
  split.
  - unfold floor_GiB, ceil_GiB.
    rewrite Zle_Qle. apply Qle_floor_ceiling.
  - destruct (target_bytes_negative size_gb Hneg) as [Hover | (t' & Ht' & Hle)];
      congruence.
Qed.



End Extras.

(** The script's call on a device with room for a gibibyte. *)
Lemma X1_witness :
  ("random_1gb_file.bin" ∉ denied sample_world_gib) /\
  (Z.to_nat (1024 * chunk_size) <= space sample_world_gib)%nat /\
  (1025 <= 1025)%nat /\
  exists w' : world,
    main (H := sample_repr) 1025 sample_world_gib = Some (Ok tt, w') /\
    file_size w' "random_1gb_file.bin" = Some (1024 ^ 3) /\
    stdout w' = ["File 'random_1gb_file.bin' of 1GB has been created."].
Proof.
  assert (Hd : "random_1gb_file.bin" ∉ denied sample_world_gib) by apply not_elem_of_empty.
  assert (Hsp : (Z.to_nat (1024 * chunk_size) <= space sample_world_gib)%nat)
    by (unfold sample_world_gib; cbn [space]; lia).
  assert (Hfuel : (1025 <= 1025)%nat) by lia.
  split; [exact Hd |]. split; [exact Hsp |]. split; [exact Hfuel |].
  destruct (X1_script_call (H := sample_repr) 1025 sample_world_gib Hd Hsp Hfuel)
    as (w' & Hrun & Hsize & _ & Hout).
  exists w'. split; [exact Hrun |]. split; [exact Hsize |]. exact Hout.
Defined.

(** Five bytes from the sample source. *)
Lemma X2_witness :
  generate_random_file (H := sample_repr) 2 "out.bin" (PyFloat five_bytes) sample_world
  = Some (Ok tt, after_run (H := sample_repr) "out.bin" (PyFloat five_bytes) 5 sample_world) /\
  exists t : Z,
    target_bytes (PyFloat five_bytes) = Ok t /\
    files (after_run (H := sample_repr) "out.bin" (PyFloat five_bytes) 5 sample_world)
      !! "out.bin"
    = Some (map sample_entropy (seq 0 (Z.to_nat t))).
Proof.
  assert (Hrun : generate_random_file (H := sample_repr) 2 "out.bin" (PyFloat five_bytes)
                   sample_world
                 = Some (Ok tt, after_run (H := sample_repr) "out.bin" (PyFloat five_bytes) 5
                                          sample_world))
    by (vm_compute; reflexivity).
  split; [exact Hrun |].
  destruct (X2_content_is_stream (H := sample_repr) 2 "out.bin" (PyFloat five_bytes)
              sample_world _ Hrun) as (t & Ht & Hfile & _).
  exists t. split; [exact Ht | exact Hfile].
Defined.


(** A call for five bytes on a device with room for three. *)
Lemma X5_witness :
  generate_random_file (H := sample_repr) 2 "out.bin" (PyFloat five_bytes) sample_world_small
  = Some (Raise OSError,
          World {[ "out.bin" := [Byte.x5a; Byte.xa5; Byte.x5a] ]} ∅ 0 sample_entropy 5
                [EvOpen "out.bin"; EvWrite "out.bin" 5; EvClose "out.bin"]) /\
  exists ns : list nat,
    [("out.bin", 5%nat)] = map (fun n => ("out.bin", n)) ns /\
    Forall (fun n => 1 <= Z.of_nat n <= chunk_size) ns.
Proof.
  assert (Hrun : generate_random_file (H := sample_repr) 2 "out.bin" (PyFloat five_bytes)
                   sample_world_small
                 = Some (Raise OSError,
                         World {[ "out.bin" := [Byte.x5a; Byte.xa5; Byte.x5a] ]} ∅ 0
                               sample_entropy 5
                               [EvOpen "out.bin"; EvWrite "out.bin" 5; EvClose "out.bin"]))
    by (vm_compute; reflexivity).
  split; [exact Hrun |].
  destruct (X5_writes_bounded (H := sample_repr) 2 "out.bin" (PyFloat five_bytes)
              sample_world_small _ _ Hrun) as (ns & Hws & Hall & _).
  exists ns. split; [exact Hws | exact Hall].
Defined.

(** The same failing call, with more fuel: the file is closed. *)
Lemma X6_witness :
  generate_random_file (H := sample_repr) 3 "out.bin" (PyFloat five_bytes) sample_world_small
  = Some (Raise OSError,
          World {[ "out.bin" := [Byte.x5a; Byte.xa5; Byte.x5a] ]} ∅ 0 sample_entropy 5
                [EvOpen "out.bin"; EvWrite "out.bin" 5; EvClose "out.bin"]) /\
  (([EvOpen "out.bin"; EvWrite "out.bin" 5; EvClose "out.bin"] = [] /\
    exists e : exn, @Raise unit OSError = Raise e) \/
   exists ns : list nat,
     [EvOpen "out.bin"; EvWrite "out.bin" 5; EvClose "out.bin"]
     = [] ++ [EvOpen "out.bin"] ++ map (EvWrite "out.bin") ns ++ [EvClose "out.bin"] ++ []).
Proof.
  assert (Hrun : generate_random_file (H := sample_repr) 3 "out.bin" (PyFloat five_bytes)
                   sample_world_small
                 = Some (Raise OSError,
                         World {[ "out.bin" := [Byte.x5a; Byte.xa5; Byte.x5a] ]} ∅ 0
                               sample_entropy 5
                               [EvOpen "out.bin"; EvWrite "out.bin" 5; EvClose "out.bin"]))
    by (vm_compute; reflexivity).
  split; [exact Hrun |].
  exact (X6_file_always_closed (H := sample_repr) 3 "out.bin" (PyFloat five_bytes)
           sample_world_small _ _ Hrun).
Defined.



(** Half a byte below zero: the target is [0], the ceiling. *)
Lemma X9_witness :
  py_negative (PyFloat (-0x1p-31)%float) = true /\
  target_bytes (PyFloat (-0x1p-31)%float) = Ok 0 /\
  exists q : Q,
    pynum_value (PyFloat (-0x1p-31)%float) = Some q /\ (q < 0)%Q /\
    0 = ceil_GiB q /\ floor_GiB q <= 0 <= 0.
Proof.
  assert (Hneg : py_negative (PyFloat (-0x1p-31)%float) = true) by (vm_compute; reflexivity).
  assert (Ht : target_bytes (PyFloat (-0x1p-31)%float) = Ok 0) by (vm_compute; reflexivity).
  split; [exact Hneg |]. split; [exact Ht |].
  exact (X9_negative_size_truncates_up (PyFloat (-0x1p-31)%float) 0 Hneg Ht).
Defined.


